(** * File-transfer pipeline with statistical debugging

    A shallow embedding of the three pieces of the repository that carry
    its logic:

    - [client/client.py]: [read_and_compress], [append_sd_row], [send_file];
    - [server/server.py]: the [/upload] handler [upload_file] with its
      corruption block;
    - [sd/analyze_sd.py]: [compute_baseline], [define_predicates],
      [analyze_predicates], [load_sd_data], [main].

    Conventions.

    - Byte strings are [list byte]; Python [int]s are [Z]; [len] is
      [Z.of_nat (length _)].
    - Python [float]s are modelled by the exact rational they denote ([Q]);
      the float literals of the source are written as the rational value of
      the binary64 number ([0.3], [0.8]).  Comparisons are therefore exact;
      the rounding of [/] and [-] is not modelled.
    - [hashlib] and [zlib] are external libraries: they appear as the
      interfaces [Sha256] and [Zlib]; the laws a theorem needs are explicit
      hypotheses, and [StoredLibs] gives an executable instance.
    - Tracing spans, metrics and [print] calls that do not influence a
      returned value are left out. *)

From Stdlib Require Import String Ascii.
From Stdlib Require Import List ZArith NArith QArith Qround Bool Lia Lqa.
From Stdlib Require Import Permutation Sorted.
From Stdlib.Strings Require Byte.
Import ListNotations.

Local Open Scope string_scope.
Local Open Scope list_scope.
Local Open Scope Z_scope.

Definition bytes := list Byte.byte.

(** ** External libraries *)

(** [hashlib.sha256()]: an object with [update] and [hexdigest]. *)
Class Sha256 := {
  sha_state : Type;
  sha256_new : sha_state;
  sha256_update : sha_state -> bytes -> sha_state;
  sha256_hexdigest : sha_state -> string
}.

(** [zlib]: the streaming compressor returned by
    [zlib.compressobj(level=6, method=DEFLATED, wbits=16+MAX_WBITS)] and the
    one-shot [zlib.decompress(body, wbits=16+MAX_WBITS)], which either raises
    (the text of the exception) or returns the decompressed bytes. *)
Class Zlib := {
  zstate : Type;
  compressobj : zstate;
  z_compress : zstate -> bytes -> zstate * bytes;
  z_flush : zstate -> bytes;
  z_decompress : bytes -> string + bytes
}.

(** Hash of a whole buffer in one pass: [sha256(); update(buf); hexdigest()]. *)
Definition sha256_hex `{Sha256} (buf : bytes) : string :=
  sha256_hexdigest (sha256_update sha256_new buf).

(** Feeding [chunks] one after the other to a compressor in state [z]: the
    pieces it emits, in order, and the final state. *)
Fixpoint z_feed `{Zlib} (z : zstate) (chunks : list bytes)
  : list bytes * zstate :=
  match chunks with
  | [] => ([], z)
  | c :: cs =>
      let '(z1, part) := z_compress z c in
      let '(parts, z2) := z_feed z1 cs in
      (part :: parts, z2)
  end.

(** The complete gzip stream produced for [chunks]: every emitted piece,
    then the flush. *)
Definition z_stream `{Zlib} (chunks : list bytes) : bytes :=
  let '(parts, z) := z_feed compressobj chunks in
  concat parts ++ z_flush z.

(** The law of the streaming hash: updating twice is updating once with the
    concatenation. *)
Definition sha256_streams `{Sha256} : Prop :=
  forall s a b, sha256_update (sha256_update s a) b = sha256_update s (a ++ b).

(** The law of the gzip stream: decompressing the stream built from any
    sequence of chunks gives back their concatenation. *)
Definition zlib_roundtrips `{Zlib} : Prop :=
  forall chunks, z_decompress (z_stream chunks) = inr (concat chunks).

(** ** Python helpers *)

(** [not s] for an optional string coming from [params.get]: [None] and the
    empty string are falsy. *)
Definition truthy (s : option string) : option string :=
  match s with
  | Some EmptyString => None
  | Some s => Some s
  | None => None
  end.

(** [x < y] on floats. *)
Definition Qltb (x y : Q) : bool := negb (Qle_bool y x).

(** [a / b] on two ints ([b] is never zero where the source divides). *)
Definition truediv (a b : Z) : Q := inject_Z a / inject_Z b.

(** Start index of the slice [data[i:]] for a sequence of length [len]. *)
Definition slice_start (i len : Z) : Z :=
  if i <? 0 then Z.max (i + len) 0 else Z.min i len.

(** [data[i:] = new] on a bytearray. *)
Definition assign_from (data : bytes) (i : Z) (new : bytes) : bytes :=
  firstn (Z.to_nat (slice_start i (Z.of_nat (length data)))) data ++ new.

(** [b"\x00" * n]; a non-positive [n] gives the empty byte string. *)
Definition zeros (n : Z) : bytes := repeat Byte.x00 (Z.to_nat n).

(** [random.random()]: the generator is a sequence of draws and a cursor;
    each call returns the draw under the cursor and advances it. *)
Record Rng := { draws : nat -> Q; cursor : nat }.

Definition random (g : Rng) : Q * Rng :=
  (draws g (cursor g), {| draws := draws g; cursor := S (cursor g) |}).

(** ** server/server.py *)

Module Server.

(** The module-level bug configuration. *)
Record Config := {
  BUG_ENABLED : bool;
  BUG_PROBABILITY : Q;
  LARGE_FILE_THRESHOLD : Z;
  CORRUPT_TAIL_BYTES : Z
}.

(** The values of the source: [True], [0.3], [10 * 1024 * 1024], [1024]. *)
Definition config : Config := {|
  BUG_ENABLED := true;
  BUG_PROBABILITY := 5404319552844595 # 18014398509481984;
  LARGE_FILE_THRESHOLD := 10 * 1024 * 1024;
  CORRUPT_TAIL_BYTES := 1024
|}.

(** The query parameters as [params.get] returns them, and the body. *)
Record Request := {
  q_filename : option string;
  q_checksum : option string;
  q_compression_ratio : option string;
  body : bytes
}.

(** The two dictionaries the handler returns. *)
Inductive Response :=
| RError (reason : string)
| ROk (filename : string) (checksum_ok : bool) (server_checksum : string)
      (compression_ratio : option string) (original_size compressed_size : Z)
      (is_large_file bug_triggered : bool).

(** What one call of the handler does: the response, the write handed to the
    thread pool (destination name and bytes) if any, and the generator
    afterwards. *)
Record Outcome := {
  response : Response;
  scheduled_write : option (string * bytes);
  rng_after : Rng
}.

Definition status_is_error (r : Response) : bool :=
  match r with RError _ => true | ROk _ _ _ _ _ _ _ _ => false end.

Section Handler.
Context `{Sha256} `{Zlib}.
Variable cfg : Config.

(** Lines 113-130: the corruption block.  Returns [bug_triggered], the
    payload afterwards and the generator afterwards.  [and] short-circuits:
    the generator is consulted only for an enabled bug and a large file. *)
Definition corruption_block (original_data : bytes) (g : Rng)
  : bool * bytes * Rng :=
  let original_size := Z.of_nat (length original_data) in
  let is_large_file := original_size >? LARGE_FILE_THRESHOLD cfg in
  if BUG_ENABLED cfg && is_large_file then
    let '(x, g1) := random g in
    if Qltb x (BUG_PROBABILITY cfg) then
      if original_size >=? CORRUPT_TAIL_BYTES cfg then
        (true,
         assign_from original_data (- CORRUPT_TAIL_BYTES cfg)
           (zeros (CORRUPT_TAIL_BYTES cfg)),
         g1)
      else (true, original_data, g1)
    else (false, original_data, g1)
  else (false, original_data, g).

Definition upload_file (req : Request) (g : Rng) : Outcome :=
  match truthy (q_filename req), truthy (q_checksum req) with
  | Some filename, Some checksum =>
      match z_decompress (body req) with
      | inl e =>
          {| response := RError (String.append "decompression_failed: " e);
             scheduled_write := None;
             rng_after := g |}
      | inr original_data =>
          let original_size := Z.of_nat (length original_data) in
          let is_large_file := original_size >? LARGE_FILE_THRESHOLD cfg in
          let '(bug_triggered, original_data1, g1) :=
            corruption_block original_data g in
          let server_checksum := sha256_hex original_data1 in
          let checksum_ok := String.eqb server_checksum checksum in
          {| response :=
               ROk filename checksum_ok server_checksum
                 (q_compression_ratio req) original_size
                 (Z.of_nat (length (body req))) is_large_file bug_triggered;
             scheduled_write := Some (filename, original_data1);
             rng_after := g1 |}
      end
  | _, _ =>
      {| response := RError "missing filename or checksum";
         scheduled_write := None;
         rng_after := g |}
  end.

End Handler.
End Server.

(** ** The persisted record store, [sd/sd_data.csv] *)

(** One row of the store, with the columns in the order of the header.  The
    flag columns hold the [int] the analyzer parses. *)
Record Row := {
  file_name : string;
  original_size : Z;
  compressed_size : Z;
  compression_ratio : Q;
  latency_ms : Q;
  is_large_file : Z;
  bug_triggered : Z;
  checksum_ok : Z;
  failed : Z
}.

(** The store: [None] while the file does not exist, otherwise its rows in
    the order they were appended (the header is written with the first).
    Rows are kept typed: the text of the CSV file, and with it a row whose
    columns do not parse, is outside the model. *)
Definition Store := option (list Row).

Definition rows_of (s : Store) : list Row :=
  match s with Some rows => rows | None => [] end.

(** ** client/client.py *)

Module Client.

(** [f.read(size)] on the unread rest of a file, for [size >= 0]: at most
    [size] bytes, and what stays unread. *)
Fixpoint take {A} (n : N) (l : list A) : list A :=
  match l with
  | [] => []
  | x :: l' => if (n =? 0)%N then [] else x :: take (N.pred n) l'
  end.

Fixpoint drop {A} (n : N) (l : list A) : list A :=
  match l with
  | [] => []
  | x :: l' => if (n =? 0)%N then l else drop (N.pred n) l'
  end.

Definition read (f : bytes) (size : N) : bytes * bytes :=
  (take size f, drop size f).

(** [round(x, 3)]: to the nearest thousandth, ties to even. *)
Definition round_half_even (x : Q) : Z :=
  let f := Qfloor x in
  match (x - inject_Z f ?= 1 # 2)%Q with
  | Lt => f
  | Gt => f + 1
  | Eq => if Z.even f then f else f + 1
  end.

Definition round3 (x : Q) : Q := inject_Z (round_half_even (x * 1000)) / 1000.

(** [append_sd_row]: [failed] is computed here, from [checksum_ok]. *)
Definition append_sd_row (store : Store) (file_name : string)
    (original_size compressed_size : Z) (compression_ratio latency_ms : Q)
    (is_large_file bug_triggered checksum_ok : bool) : Store :=
  let failed := negb checksum_ok in
  Some (rows_of store ++
        [ {| file_name := file_name;
             original_size := original_size;
             compressed_size := compressed_size;
             compression_ratio := compression_ratio;
             latency_ms := round3 latency_ms;
             is_large_file := Z.b2z is_large_file;
             bug_triggered := Z.b2z bug_triggered;
             checksum_ok := Z.b2z checksum_ok;
             failed := Z.b2z failed |} ]).

(** The tuple [read_and_compress] returns. *)
Record Compressed := {
  compressed : bytes;
  checksum : string;
  c_original_size : Z;
  c_compressed_size : Z;
  c_compression_ratio : Q;
  chunk_count : Z
}.

Section Codec.
Context `{Sha256} `{Zlib}.

(** The variables the [while True] loop updates. *)
Record LoopState := {
  sha : sha_state;
  compressor : zstate;
  l_original_size : Z;
  l_chunk_count : Z;
  compressed_parts : list bytes
}.

(** [if part: parts.append(part)] *)
Definition append_nonempty (parts : list bytes) (part : bytes) : list bytes :=
  match part with
  | [] => parts
  | _ :: _ => parts ++ [part]
  end.

(** The [while True] loop over the unread rest [f]; [fuel] bounds the number
    of iterations. *)
Fixpoint read_loop (fuel : nat) (chunk_size : N) (f : bytes) (st : LoopState)
  : option LoopState :=
  match fuel with
  | O => None
  | S fuel' =>
      let '(chunk, f') := read f chunk_size in
      match chunk with
      | [] => Some st
      | _ :: _ =>
          let '(z1, compressed_part) := z_compress (compressor st) chunk in
          read_loop fuel' chunk_size f'
            {| sha := sha256_update (sha st) chunk;
               compressor := z1;
               l_original_size := l_original_size st + Z.of_nat (length chunk);
               l_chunk_count := l_chunk_count st + 1;
               compressed_parts :=
                 append_nonempty (compressed_parts st) compressed_part |}
      end
  end.

Definition loop_init : LoopState :=
  {| sha := sha256_new;
     compressor := compressobj;
     l_original_size := 0;
     l_chunk_count := 0;
     compressed_parts := [] |}.

(** What follows the loop: flush, join, sizes, ratio and digest. *)
Definition finish (st : LoopState) : Compressed :=
  let flushed := z_flush (compressor st) in
  let parts := append_nonempty (compressed_parts st) flushed in
  let compressed := concat parts in
  let compressed_size := Z.of_nat (length compressed) in
  let original_size := l_original_size st in
  let compression_ratio :=
    if original_size >? 0 then truediv compressed_size original_size else 1%Q in
  {| compressed := compressed;
     checksum := sha256_hexdigest (sha st);
     c_original_size := original_size;
     c_compressed_size := compressed_size;
     c_compression_ratio := compression_ratio;
     chunk_count := l_chunk_count st |}.

(** [read_and_compress(file_path, chunk_size)] on a file holding [file].
    Every iteration that does not leave the loop consumes at least one
    byte, so one more iteration than there are bytes is enough. *)
Definition read_and_compress (file : bytes) (chunk_size : N)
  : option Compressed :=
  option_map finish (read_loop (S (length file)) chunk_size file loop_init).

(** The state in which the loop ends once it has read [chunks] from
    [st]; used to state what the loop computes. *)
Definition after_chunks (st : LoopState) (chunks : list bytes) : LoopState :=
  {| sha := fold_left sha256_update chunks (sha st);
     compressor := snd (z_feed (compressor st) chunks);
     l_original_size := l_original_size st + Z.of_nat (length (concat chunks));
     l_chunk_count := l_chunk_count st + Z.of_nat (length chunks);
     compressed_parts :=
       fold_left append_nonempty (fst (z_feed (compressor st) chunks))
         (compressed_parts st) |}.

Definition default_chunk_size : N := 1024 * 1024.

(** Python's [str] of a float, used for the informational query
    parameter. *)
Variable str_float : Q -> string.

(** Lines 175-179: the query parameters and body of the request. *)
Definition request_of (name : string) (c : Compressed) : Server.Request :=
  {| Server.q_filename := Some name;
     Server.q_checksum := Some (checksum c);
     Server.q_compression_ratio := Some (str_float (c_compression_ratio c));
     Server.body := compressed c |}.

(** [resp_json.get("checksum_ok", True)] and its two siblings: the value
    under the key, or the default when the dictionary has no such key. *)
Definition get_checksum_ok (r : Server.Response) : bool :=
  match r with
  | Server.ROk _ checksum_ok _ _ _ _ _ _ => checksum_ok
  | Server.RError _ => true
  end.

Definition get_is_large_file (r : Server.Response) : bool :=
  match r with
  | Server.ROk _ _ _ _ _ _ is_large_file _ => is_large_file
  | Server.RError _ => false
  end.

Definition get_bug_triggered (r : Server.Response) : bool :=
  match r with
  | Server.ROk _ _ _ _ _ _ _ bug_triggered => bug_triggered
  | Server.RError _ => false
  end.

(** Lines 198-217: what [send_file] does with the decoded response.  The
    handler answers with a dictionary in both cases, so the HTTP status is
    200 and [raise_for_status] passes. *)
Definition record_response (name : string) (c : Compressed) (elapsed_ms : Q)
    (resp_json : Server.Response) (store : Store) : Store :=
  let checksum_ok := get_checksum_ok resp_json in
  let is_large_file := get_is_large_file resp_json in
  let bug_triggered := get_bug_triggered resp_json in
  append_sd_row store name (c_original_size c) (c_compressed_size c)
    (c_compression_ratio c) elapsed_ms is_large_file bug_triggered checksum_ok.

(** [send_file] against a server configured by [cfg] whose generator is
    [g]; [elapsed_ms] is the latency the client's clock measures.  Returns
    the store and the server's outcome. *)
Definition send_file (cfg : Server.Config) (name : string) (file : bytes)
    (elapsed_ms : Q) (g : Rng) (store : Store)
  : option (Store * Server.Outcome) :=
  match read_and_compress file default_chunk_size with
  | None => None
  | Some c =>
      let out := Server.upload_file cfg (request_of name c) g in
      Some (record_response name c elapsed_ms (Server.response out) store, out)
  end.

End Codec.
End Client.

(** ** sd/analyze_sd.py *)

Module Analyzer.

Inductive Exception := FileNotFoundError.

(** [load_sd_data]: raises when the file is absent, otherwise returns its
    rows with the numeric columns converted.  A [Store] holds rows whose
    columns are already numbers: a file without the header line or with a
    column that [int] or [float] rejects, on which the source raises
    [KeyError] or [ValueError], is not a value of [Store]. *)
Definition load_sd_data (store : Store) : Exception + list Row :=
  match store with
  | None => inl FileNotFoundError
  | Some rows => inr rows
  end.

Record Baseline := {
  total_runs : Z;
  total_failed : Z;
  total_passed : Z;
  baseline_failure_rate : Q
}.

(** [sum(...)]: a left fold from 0. *)
Definition sum (l : list Z) : Z := fold_left Z.add l 0.

Definition compute_baseline (rows : list Row) : Baseline :=
  let total_runs := Z.of_nat (length rows) in
  let total_failed := sum (map failed rows) in
  let total_passed := total_runs - total_failed in
  let baseline_failure_rate :=
    if total_runs >? 0 then truediv total_failed total_runs else 0%Q in
  {| total_runs := total_runs;
     total_failed := total_failed;
     total_passed := total_passed;
     baseline_failure_rate := baseline_failure_rate |}.

(** [bool(n)] for an int. *)
Definition py_bool (n : Z) : bool := negb (n =? 0).

(** The float literal [0.8], as the binary64 number it denotes. *)
Definition float_0_8 : Q := 3602879701896397 # 4503599627370496.

(** [define_predicates]: the dictionary, in insertion order. *)
Definition define_predicates (row : Row) : list (string * bool) :=
  [ ("P1_is_large_file", py_bool (is_large_file row));
    ("P2_bug_triggered", py_bool (bug_triggered row));
    ("P3_checksum_failed", negb (py_bool (checksum_ok row)));
    ("P4_high_latency", Qltb 200 (latency_ms row));
    ("P5_high_compression_ratio", Qltb float_0_8 (compression_ratio row));
    ("P6_very_large_file", original_size row >? 50 * 1024 * 1024);
    ("P7_small_file", original_size row <? 100 * 1024);
    ("P8_medium_file",
       (100 * 1024 <=? original_size row)
       && (original_size row <=? 10 * 1024 * 1024)) ].

(** The counters kept per predicate.  (The source also stores [failure_P]
    and [increase] back into this dictionary, which nothing reads.) *)
Record Stats := { s_failed_P : Z; s_passed_P : Z; s_support : Z }.

Definition default_stats : Stats :=
  {| s_failed_P := 0; s_passed_P := 0; s_support := 0 |}.

(** Lines 111-115 on one entry. *)
Definition incr (failed : bool) (s : Stats) : Stats :=
  {| s_failed_P := if failed then s_failed_P s + 1 else s_failed_P s;
     s_passed_P := if failed then s_passed_P s else s_passed_P s + 1;
     s_support := s_support s + 1 |}.

(** [s = stats[name]] followed by the increments, on a [defaultdict] kept in
    insertion order: an existing entry is updated where it is, a missing one
    is created at the end. *)
Fixpoint bump (name : string) (failed : bool) (stats : list (string * Stats))
  : list (string * Stats) :=
  match stats with
  | [] => [(name, incr failed default_stats)]
  | (k, s) :: rest =>
      if String.eqb k name then (k, incr failed s) :: rest
      else (k, s) :: bump name failed rest
  end.

(** The inner loop over [preds.items()] for one row. *)
Definition row_update (stats : list (string * Stats)) (row : Row)
  : list (string * Stats) :=
  let failed := py_bool (failed row) in
  fold_left
    (fun (stats : list (string * Stats)) '(name, value) =>
       if (value : bool) then bump name failed stats else stats)
    (define_predicates row) stats.

(** The outer loop over [rows]. *)
Definition accumulate (rows : list Row) : list (string * Stats) :=
  fold_left row_update rows [].

Record PredResult := {
  name : string;
  failed_P : Z;
  passed_P : Z;
  support : Z;
  failure_P : Q;
  increase : Q
}.

(** Lines 129-132. *)
Definition failure_rate_when_P (failed_P support : Z) : Q :=
  if support >? 0 then truediv failed_P support else 0%Q.

(** The body of the second loop. *)
Definition score (b : Baseline) (entry : string * Stats) : PredResult :=
  let '(name, s) := entry in
  let failed_P := s_failed_P s in
  let passed_P := s_passed_P s in
  let support := s_support s in
  let failure_P :=
    if total_failed b >? 0 then truediv failed_P (total_failed b) else 0%Q in
  let increase :=
    (failure_rate_when_P failed_P support - baseline_failure_rate b)%Q in
  {| name := name;
     failed_P := failed_P;
     passed_P := passed_P;
     support := support;
     failure_P := failure_P;
     increase := increase |}.

(** [<] on the sort keys [(increase, failure_P)]: tuples compare
    lexicographically. *)
Definition key_lt (a b : PredResult) : bool :=
  match (increase a ?= increase b)%Q with
  | Lt => true
  | Gt => false
  | Eq => Qltb (failure_P a) (failure_P b)
  end.

(** [list.sort(key=..., reverse=True)]: descending, and stable (entries with
    equal keys keep their order).  [insert_desc x l] places [x], which
    preceded every entry of [l] in the unsorted list, in front of the first
    entry whose key is not greater than its own. *)
Fixpoint insert_desc (x : PredResult) (l : list PredResult) : list PredResult :=
  match l with
  | [] => [x]
  | y :: l' => if key_lt x y then y :: insert_desc x l' else x :: y :: l'
  end.

Fixpoint sort_desc (l : list PredResult) : list PredResult :=
  match l with
  | [] => []
  | x :: l' => insert_desc x (sort_desc l')
  end.

(** What the analyzer prints, one constructor per [print]. *)
Inductive Line :=
| Baseline_title
| Total_runs (n : Z)
| Total_failed (n : Z)
| Total_passed (n : Z)
| Failure_rate (q : Q)
| Blank
| No_rows
| No_support
| Ranking_title
| Columns
| Ranked (r : PredResult).

(** [analyze_predicates]: the lines printed and the value returned ([None]
    for the bare [return]). *)
Definition analyze_predicates (rows : list Row) (baseline : Baseline)
  : list Line * option (list PredResult) :=
  if total_runs baseline =? 0 then ([No_rows], None)
  else
    let stats := accumulate rows in
    let result := map (score baseline) stats in
    ([], Some (sort_desc result)).

(** [main] on a given store: the exception raised, or the lines printed. *)
Definition main (store : Store) : Exception + list Line :=
  match load_sd_data store with
  | inl e => inl e
  | inr rows =>
      let baseline := compute_baseline rows in
      let head :=
        [ Baseline_title;
          Total_runs (total_runs baseline);
          Total_failed (total_failed baseline);
          Total_passed (total_passed baseline);
          Failure_rate (baseline_failure_rate baseline);
          Blank ] in
      let '(printed, preds) := analyze_predicates rows baseline in
      match preds with
      | None | Some [] => inr (head ++ printed ++ [No_support])
      | Some (r :: rs) =>
          inr (head ++ printed ++ [Ranking_title; Columns]
                 ++ map Ranked (r :: rs))
      end
  end.

End Analyzer.

(** ** An executable instance of the libraries

    A transparent digest (the hexadecimal of the bytes hashed) and a
    stored-block framing (one magic byte, then the data as they are).  They
    obey the streaming laws and let the embedding run on concrete inputs;
    they are neither SHA-256 nor DEFLATE. *)

Module StoredLibs.

Definition hex_digit (n : N) : ascii :=
  match n with
  | 0 => "0" | 1 => "1" | 2 => "2" | 3 => "3" | 4 => "4" | 5 => "5"
  | 6 => "6" | 7 => "7" | 8 => "8" | 9 => "9" | 10 => "a" | 11 => "b"
  | 12 => "c" | 13 => "d" | 14 => "e" | _ => "f"
  end%N%char.

Definition hex_of_byte (b : Byte.byte) : string :=
  let n := Byte.to_N b in
  String (hex_digit (n / 16)) (String (hex_digit (n mod 16)) EmptyString).

Fixpoint hex_of (l : bytes) : string :=
  match l with
  | [] => EmptyString
  | b :: l' => String.append (hex_of_byte b) (hex_of l')
  end.

#[local] Instance sha : Sha256 := {|
  sha_state := bytes;
  sha256_new := [];
  sha256_update := fun s chunk => s ++ chunk;
  sha256_hexdigest := hex_of
|}.

Definition magic : Byte.byte := Byte.x1f.

(** The state records whether the magic byte has been emitted. *)
#[local] Instance zlib : Zlib := {|
  zstate := bool;
  compressobj := false;
  z_compress := fun started chunk =>
    (true, if started then chunk else magic :: chunk);
  z_flush := fun started => if started then [] else [magic];
  z_decompress := fun body =>
    match body with
    | Byte.x1f :: data => inr data
    | _ => inl "Error -3 while decompressing data: incorrect header check"
    end
|}.

(** [str] of a float is only informational; a fixed text stands for it. *)
Definition str_float (q : Q) : string := "ratio".

End StoredLibs.

(** ** What the analyzer is measured against *)

Module Measure.

(** The value under a key of a dictionary kept as a list of items. *)
Fixpoint assoc {A} (key : string) (items : list (string * A)) : option A :=
  match items with
  | [] => None
  | (k, v) :: rest => if String.eqb k key then Some v else assoc key rest
  end.

(** Predicate [name] is true of [row], by [define_predicates]. *)
Definition holds (name : string) (row : Row) : bool :=
  match assoc name (Analyzer.define_predicates row) with
  | Some value => value
  | None => false
  end.

(** The number of rows satisfying [p]. *)
Definition count (p : Row -> bool) (rows : list Row) : Z :=
  Z.of_nat (length (filter p rows)).

Definition support_of (name : string) (rows : list Row) : Z :=
  count (holds name) rows.

Definition failed_of (name : string) (rows : list Row) : Z :=
  count (fun r => holds name r && Analyzer.py_bool (failed r)) rows.

Definition passed_of (name : string) (rows : list Row) : Z :=
  count (fun r => holds name r && negb (Analyzer.py_bool (failed r))) rows.

(** The counters of [name] in the dictionary, or the default entry. *)
Definition stat_of (name : string) (stats : list (string * Analyzer.Stats))
  : Analyzer.Stats :=
  match assoc name stats with
  | Some s => s
  | None => Analyzer.default_stats
  end.

(** A row as the recorder writes it: the [failed] column is 0 or 1. *)
Definition recorded (r : Row) : Prop := failed r = 0 \/ failed r = 1.

(** The key of [a] is not below the key of [b]: a larger [increase], or an
    equal one and a [failure_P] that is not smaller. *)
Definition key_ge (a b : Analyzer.PredResult) : Prop :=
  (Analyzer.increase b < Analyzer.increase a)%Q \/
  ((Analyzer.increase a == Analyzer.increase b)%Q /\
   (Analyzer.failure_P b <= Analyzer.failure_P a)%Q).

(** [a] and [b] have equal keys. *)
Definition same_key (a b : Analyzer.PredResult) : bool :=
  Qeq_bool (Analyzer.increase a) (Analyzer.increase b)
  && Qeq_bool (Analyzer.failure_P a) (Analyzer.failure_P b).

(** The names of the predicates true of [row], in dictionary order. *)
Definition true_names (row : Row) : list string :=
  map fst (filter snd (Analyzer.define_predicates row)).

(** [name] joins [keys] at the end unless it is there already. *)
Definition add_key (keys : list string) (name : string) : list string :=
  if existsb (String.eqb name) keys then keys else keys ++ [name].

(** The predicates that are true of some row, in the order in which each
    is first seen when the rows are read from first to last. *)
Definition first_seen (rows : list Row) : list string :=
  fold_left add_key (concat (map true_names rows)) [].

(** What every entry of the dictionary satisfies. *)
Definition entry_ok (e : string * Analyzer.Stats) : Prop :=
  Analyzer.s_support (snd e)
    = Analyzer.s_failed_P (snd e) + Analyzer.s_passed_P (snd e) /\
  1 <= Analyzer.s_support (snd e) /\
  0 <= Analyzer.s_failed_P (snd e) /\
  0 <= Analyzer.s_passed_P (snd e).

(** The counters of one predicate after one more row. *)
Definition tally (name : string) (s : Analyzer.Stats) (row : Row)
  : Analyzer.Stats :=
  if holds name row then Analyzer.incr (Analyzer.py_bool (failed row)) s
  else s.

End Measure.

(** ** Statements of the specification that the code does not satisfy *)

Module Stated.

(** With no records available the analyzer prints a zero baseline and no
    ranking, and raises nothing. *)
Definition empty_input_reported (store : Store) : Prop :=
  rows_of store = [] ->
  exists lines,
    Analyzer.main store = inr lines /\
    In (Analyzer.Total_runs 0) lines /\
    In (Analyzer.Total_failed 0) lines /\
    In (Analyzer.Failure_rate 0) lines /\
    forall r, ~ In (Analyzer.Ranked r) lines.

End Stated.

(** ** Sample data *)

Module Samples.

(** A test configuration with a threshold of 2 bytes, a span of 4 bytes and
    the probability forced to 1. *)
Definition tiny_config : Server.Config := {|
  Server.BUG_ENABLED := true;
  Server.BUG_PROBABILITY := 1;
  Server.LARGE_FILE_THRESHOLD := 2;
  Server.CORRUPT_TAIL_BYTES := 4
|}.

(** A generator whose every draw is 0. *)
Definition rng0 : Rng := {| draws := fun _ => 0%Q; cursor := 0 |}.

Definition six_bytes : bytes :=
  [Byte.x61; Byte.x62; Byte.x63; Byte.x64; Byte.x65; Byte.x66].

Definition three_bytes : bytes := [Byte.x61; Byte.x62; Byte.x63].

(** [rng0] after one draw. *)
Definition rng1 : Rng := {| draws := fun _ => 0%Q; cursor := 1 |}.

(** [six_bytes] with its last four bytes zeroed. *)
Definition six_zeroed : bytes :=
  [Byte.x61; Byte.x62; Byte.x00; Byte.x00; Byte.x00; Byte.x00].

(** A well-formed upload of [data] under the name [fname], by the stored
    framing. *)
Definition upload_of (fname : string) (data : bytes) : Server.Request :=
  {| Server.q_filename := Some fname;
     Server.q_checksum := Some (StoredLibs.hex_of data);
     Server.q_compression_ratio := Some "1.0";
     Server.body := StoredLibs.magic :: data |}.

(** An upload call without a filename. *)
Definition upload_without_filename : Server.Request :=
  {| Server.q_filename := None;
     Server.q_checksum := Some "00";
     Server.q_compression_ratio := None;
     Server.body := [] |}.

(** An upload whose body is not a gzip stream. *)
Definition upload_garbage : Server.Request :=
  {| Server.q_filename := Some "a.bin";
     Server.q_checksum := Some "00";
     Server.q_compression_ratio := None;
     Server.body := [Byte.x00; Byte.x01] |}.

Definition MiB : Z := 1024 * 1024.

Definition sample_row (size : Z) (large ok : bool) : Row :=
  {| file_name := "f";
     original_size := size;
     compressed_size := size;
     compression_ratio := 1 # 2;
     latency_ms := 10;
     is_large_file := Z.b2z large;
     bug_triggered := Z.b2z (negb ok);
     checksum_ok := Z.b2z ok;
     failed := Z.b2z (negb ok) |}.

(** The four records of the specification's example: two large and failed,
    one large and passed, one small and passed. *)
Definition four_rows : list Row :=
  [ sample_row (20 * MiB) true false;
    sample_row (20 * MiB) true false;
    sample_row (20 * MiB) true true;
    sample_row 1024 false true ].

(** The entry the analyzer computes for P1 on [four_rows]. *)
Definition p1_entry : Analyzer.PredResult :=
  {| Analyzer.name := "P1_is_large_file";
     Analyzer.failed_P := 2;
     Analyzer.passed_P := 1;
     Analyzer.support := 3;
     Analyzer.failure_P := 2 # 2;
     Analyzer.increase := 2 # 12 |}.

(** What the analyzer prints for a store that exists and has no rows. *)
Definition no_data_report : list Analyzer.Line :=
  [ Analyzer.Baseline_title; Analyzer.Total_runs 0; Analyzer.Total_failed 0;
    Analyzer.Total_passed 0; Analyzer.Failure_rate 0; Analyzer.Blank;
    Analyzer.No_rows; Analyzer.No_support ].

(** Two transfers that passed: a small file, then a large one. *)
Definition passed_rows : list Row :=
  [ sample_row 1024 false true; sample_row (20 * MiB) true true ].

(** The entry of P3 on [four_rows]. *)
Definition p3_entry : Analyzer.PredResult :=
  {| Analyzer.name := "P3_checksum_failed";
     Analyzer.failed_P := 2;
     Analyzer.passed_P := 0;
     Analyzer.support := 2;
     Analyzer.failure_P := 2 # 2;
     Analyzer.increase := 4 # 8 |}.

End Samples.

(** ** telemetry/otel_setup.py *)

Module Telemetry.

(** A Python float as [float(text)] can return it. *)
Inductive PyFloat := Finite (q : Q) | PosInf | NegInf | NaN.

(** [a <= b] on floats; every comparison with NaN is false. *)
Definition float_le (a b : PyFloat) : bool :=
  match a, b with
  | NaN, _ | _, NaN => false
  | NegInf, _ => true
  | _, PosInf => true
  | Finite x, Finite y => Qle_bool x y
  | Finite _, NegInf => false
  | PosInf, _ => false
  end.

Section Sampler.

(** [float(text)]: [None] stands for [ValueError]. *)
Variable float_of_string : string -> option PyFloat.

(** [_make_sampler]: the ratio handed to [TraceIdRatioBased].  (The file
    defines the function twice, with the same body.) *)
Definition _make_sampler (sampling : string) : PyFloat :=
  if String.eqb sampling "always_on" then Finite 1
  else
    match float_of_string sampling with
    | Some ratio =>
        if float_le (Finite 0) ratio && float_le ratio (Finite 1)
        then ratio
        else Finite 1
    | None => Finite 1
    end.

End Sampler.
End Telemetry.

(** ** generate_client_files.py *)

Module Generate.

(** The source of [random.choice]: a sequence of integers and a cursor;
    [randbelow n] reduces the integer under the cursor below [n] and
    advances. *)
Record Picker := { picks : nat -> nat; at_pick : nat }.

Definition randbelow (n : nat) (g : Picker) : nat * Picker :=
  (Nat.modulo (picks g (at_pick g)) n,
   {| picks := picks g; at_pick := S (at_pick g) |}).

(** [string.ascii_letters + string.digits + " \n"], as bytes. *)
Definition chars : bytes :=
  String.list_byte_of_string
    "abcdefghijklmnopqrstuvwxyzABCDEFGHIJKLMNOPQRSTUVWXYZ0123456789 "
  ++ [Byte.x0a].

(** [random.choice(chars)]; [chars] is not empty. *)
Definition choice (g : Picker) : Byte.byte * Picker :=
  let '(i, g1) := randbelow (length chars) g in
  (nth i chars Byte.x00, g1).

(** The generator expression over [range(count)]. *)
Fixpoint choices (count : nat) (g : Picker) : bytes * Picker :=
  match count with
  | O => ([], g)
  | S count' =>
      let '(b, g1) := choice g in
      let '(rest, g2) := choices count' g1 in
      (b :: rest, g2)
  end.

(** [random_text_bytes(size)]: [range] of a negative size is empty, and
    the UTF-8 encoding of these characters is one byte each. *)
Definition random_text_bytes (size : Z) (g : Picker) : bytes * Picker :=
  choices (Z.to_nat size) g.

End Generate.

(** ** client/client.py: [main] *)

Module ClientRun.

(** An entry of the client directory: a regular file with its contents, or
    anything for which [is_file] is false. *)
Inductive DirEntry := File (content : bytes) | Other.

Definition is_file (e : string * DirEntry) : bool :=
  match snd e with File _ => true | Other => false end.

(** [sorted(CLIENT_DIR.iterdir())]: paths of one directory are ordered by
    their names; the sort is stable.  [insert_entry x l] places [x], which
    preceded every entry of [l] in the listing, in front of the first entry
    whose name is not below its own. *)
Fixpoint insert_entry (x : string * DirEntry) (l : list (string * DirEntry))
  : list (string * DirEntry) :=
  match l with
  | [] => [x]
  | y :: l' =>
      if String.ltb (fst y) (fst x) then y :: insert_entry x l'
      else x :: y :: l'
  end.

Fixpoint sorted (listing : list (string * DirEntry))
  : list (string * DirEntry) :=
  match listing with
  | [] => []
  | x :: l' => insert_entry x (sorted l')
  end.

Inductive Exception := RuntimeError.

(** What a run changes: the store, the server's generator, the outcomes of
    the uploads in the order they were made. *)
Record State := {
  store : Store;
  rng : Rng;
  outcomes : list Server.Outcome
}.

Section Run.
Context `{Sha256} `{Zlib}.
Variable str_float : Q -> string.
Variable cfg : Server.Config.

(** The latency the clock measures for the upload of a file. *)
Variable elapsed_ms : string -> Q.

(** The [for p in files] loop. *)
Fixpoint send_all (files : list (string * DirEntry)) (st : State)
  : option State :=
  match files with
  | [] => Some st
  | (name, File content) :: rest =>
      match Client.send_file str_float cfg name content (elapsed_ms name)
              (rng st) (store st) with
      | None => None
      | Some (store1, out) =>
          send_all rest
            {| store := store1;
               rng := Server.rng_after out;
               outcomes := outcomes st ++ [out] |}
      end
  | (_, Other) :: rest => send_all rest st
  end.

(** [main] on a client directory that is absent ([None]) or holds
    [listing]. *)
Definition main (dir : option (list (string * DirEntry))) (st : State)
  : Exception + option State :=
  match dir with
  | None => inl RuntimeError
  | Some listing =>
      match sorted listing with
      | [] => inr (Some st)
      | p :: ps => inr (send_all (p :: ps) st)
      end
  end.

End Run.
End ClientRun.

(** ** A sample client directory *)

Module RunSamples.

(** A client directory: two regular files and a sub-directory, listed out
    of order. *)
Definition sample_listing : list (string * ClientRun.DirEntry) :=
  [ ("b.bin", ClientRun.File Samples.six_bytes);
    ("sub", ClientRun.Other);
    ("a.txt", ClientRun.File Samples.three_bytes) ].

(** Before the first run: no store, a fresh generator, no upload made. *)
Definition fresh_state : ClientRun.State :=
  {| ClientRun.store := None;
     ClientRun.rng := Samples.rng0;
     ClientRun.outcomes := [] |}.

(** The float literal [0.2], as the binary64 number it denotes. *)
Definition float_0_2 : Q := 3602879701896397 # 18014398509481984.

(** A [float] that parses three texts and raises on every other. *)
Definition sample_float (text : string) : option Telemetry.PyFloat :=
  if String.eqb text "0.2" then Some (Telemetry.Finite float_0_2)
  else if String.eqb text "2" then Some (Telemetry.Finite 2)
  else if String.eqb text "nan" then Some Telemetry.NaN
  else None.

End RunSamples.

(** ** Upload calls and the store *)

Module Transfer.

(** An upload call reaches the server either from [send_file], for a file
    of the client directory, or from any other HTTP client.  Only the first
    runs code that can write the store: [server.py] never touches it. *)
Inductive Upload :=
| BySendFile (name : string) (file : bytes) (elapsed_ms : Q)
| ByOther (req : Server.Request).

Section Calls.
Context `{Sha256} `{Zlib}.
Variable str_float : Q -> string.
Variable cfg : Server.Config.

(** The request the call puts on the wire. *)
Definition request_made (u : Upload) : option Server.Request :=
  match u with
  | BySendFile name file _ =>
      option_map (Client.request_of str_float name)
        (Client.read_and_compress file Client.default_chunk_size)
  | ByOther req => Some req
  end.

(** The call from start to end: the store afterwards and what the handler
    did. *)
Definition perform (u : Upload) (g : Rng) (store : Store)
  : option (Store * Server.Outcome) :=
  match u with
  | BySendFile name file elapsed_ms =>
      Client.send_file str_float cfg name file elapsed_ms g store
  | ByOther req => Some (store, Server.upload_file cfg req g)
  end.

End Calls.

(** A file sent by [send_file] has a name, which is not empty, and the hex
    digest sent for it is not the empty text. *)
Definition from_client_file (u : Upload) (req : Server.Request) : Prop :=
  match u with
  | BySendFile name _ _ =>
      name <> EmptyString /\ Server.q_checksum req <> Some EmptyString
  | ByOther _ => True
  end.

End Transfer.

(** ** Shapes used to state further properties *)

Module Shape.

(** [chunks] is a cut into pieces of [n] bytes: every piece but the last
    has exactly [n] bytes, the last has between 1 and [n]. *)
Fixpoint well_cut (n : nat) (chunks : list bytes) : Prop :=
  match chunks with
  | [] => True
  | c :: rest =>
      match rest with
      | [] => (0 < length c <= n)%nat
      | _ :: _ => length c = n /\ well_cut n rest
      end
  end.

(** A row as [append_sd_row] writes it: [checksum_ok] is 0 or 1 and
    [failed] is its complement. *)
Definition faithful (r : Row) : Prop :=
  (checksum_ok r = 0 \/ checksum_ok r = 1) /\ failed r = 1 - checksum_ok r.

(** The keys of the dictionary [define_predicates] builds. *)
Definition predicate_names : list string :=
  [ "P1_is_large_file"; "P2_bug_triggered"; "P3_checksum_failed";
    "P4_high_latency"; "P5_high_compression_ratio"; "P6_very_large_file";
    "P7_small_file"; "P8_medium_file" ].

(** The entry a predicate gets from its three counts over the rows. *)
Definition entry_of (rows : list Row) (name : string) : Analyzer.PredResult :=
  Analyzer.score (Analyzer.compute_baseline rows)
    (name,
     {| Analyzer.s_failed_P := Measure.failed_of name rows;
        Analyzer.s_passed_P := Measure.passed_of name rows;
        Analyzer.s_support := Measure.support_of name rows |}).

(** The sizes that no size predicate covers: above 10 MiB and at most
    50 MiB. *)
Definition between_medium_and_very_large (r : Row) : bool :=
  (10 * 1024 * 1024 <? original_size r)
  && (original_size r <=? 50 * 1024 * 1024).

(** The entries of the ranked lines of a report, in the order printed. *)
Definition ranked_lines (lines : list Analyzer.Line)
  : list Analyzer.PredResult :=
  flat_map
    (fun l => match l with Analyzer.Ranked r => [r] | _ => [] end) lines.

End Shape.

(** * Properties *)

(** ** The library instance obeys the laws *)

Lemma stored_sha256_streams : sha256_streams (H := StoredLibs.sha).
Proof. intros s a b; cbn; now rewrite app_assoc. Qed.

Lemma stored_feed_started (chunks : list bytes) :
  let '(parts, z) := z_feed (H := StoredLibs.zlib) true chunks in
  concat parts = concat chunks /\ z = true.
Proof.
  induction chunks as [|c cs IH]; cbn; [easy|].
  destruct (z_feed (H := StoredLibs.zlib) true cs) as [parts z].
  destruct IH as [E ->]; cbn [concat]; now rewrite E.
Qed.

Lemma stored_stream (chunks : list bytes) :
  z_stream (H := StoredLibs.zlib) chunks = StoredLibs.magic :: concat chunks.
Proof.
  unfold z_stream; destruct chunks as [|c cs]; cbn; [reflexivity|].
  pose proof (stored_feed_started cs) as F.
  destruct (z_feed (H := StoredLibs.zlib) true cs) as [parts z].
  destruct F as [E ->]; cbn [concat z_flush StoredLibs.zlib app].
  now rewrite E, app_nil_r.
Qed.

Lemma stored_zlib_roundtrips : zlib_roundtrips (H := StoredLibs.zlib).
Proof. intros chunks; now rewrite stored_stream. Qed.

(** ** The server *)

Section ServerFacts.
Context `{Sha256} `{Zlib}.
Variable cfg : Server.Config.

Lemma upload_file_accepted (req : Server.Request) (g : Rng)
    (fname csum : string) (data : bytes) :
  truthy (Server.q_filename req) = Some fname ->
  truthy (Server.q_checksum req) = Some csum ->
  z_decompress (Server.body req) = inr data ->
  Server.upload_file cfg req g =
  let '(bug_triggered, data1, g1) := Server.corruption_block cfg data g in
  {| Server.response :=
       Server.ROk fname (String.eqb (sha256_hex data1) csum) (sha256_hex data1)
         (Server.q_compression_ratio req) (Z.of_nat (length data))
         (Z.of_nat (length (Server.body req)))
         (Z.of_nat (length data) >? Server.LARGE_FILE_THRESHOLD cfg)
         bug_triggered;
     Server.scheduled_write := Some (fname, data1);
     Server.rng_after := g1 |}.
Proof.
  intros Hf Hc Hd; unfold Server.upload_file; rewrite Hf, Hc, Hd.
  now destruct (Server.corruption_block cfg data g) as [[t d1] g1].
Qed.

Lemma corruption_block_small (data : bytes) (g : Rng) :
  Z.of_nat (length data) <= Server.LARGE_FILE_THRESHOLD cfg ->
  Server.corruption_block cfg data g = (false, data, g).
Proof.
  intros Hle; unfold Server.corruption_block.
  replace (Z.of_nat (length data) >? Server.LARGE_FILE_THRESHOLD cfg)
    with false by (symmetry; rewrite Z.gtb_ltb; apply Z.ltb_ge; exact Hle).
  now rewrite andb_false_r.
Qed.

(** The four ways through the corruption block. *)
Lemma corruption_block_cases (data : bytes) (g : Rng) :
  let size := Z.of_nat (length data) in
  let L := Server.CORRUPT_TAIL_BYTES cfg in
  forall t d1 g1, Server.corruption_block cfg data g = (t, d1, g1) ->
  (t = false /\ d1 = data) \/
  (t = true /\ L <= size /\ d1 = assign_from data (- L) (zeros L)) \/
  (t = true /\ size < L /\ d1 = data).
Proof.
  intros size L t d1 g1; unfold Server.corruption_block.
  fold size; fold L.
  destruct (Server.BUG_ENABLED cfg
            && (size >? Server.LARGE_FILE_THRESHOLD cfg)).
  - cbn [random].
    destruct (Qltb _ _).
    + destruct (size >=? L) eqn:E; intros [= <- <- <-].
      * right; left; repeat split.
        rewrite Z.geb_leb in E; now apply Z.leb_le.
      * right; right; repeat split.
        rewrite Z.geb_leb in E; now apply Z.leb_gt.
    + intros [= <- <- <-]; now left.
  - intros [= <- <- <-]; now left.
Qed.

End ServerFacts.

(** [data[-L:] = zeros] when [0 < L <= len(data)]: the head of
    [len(data) - L] bytes stays, [L] zero bytes follow. *)
Lemma assign_tail_zeros (data : bytes) (L : Z) :
  0 < L -> L <= Z.of_nat (length data) ->
  assign_from data (- L) (zeros L) =
  firstn (length data - Z.to_nat L) data ++ repeat Byte.x00 (Z.to_nat L).
Proof.
  intros Hpos Hle; unfold assign_from, slice_start, zeros.
  replace (- L <? 0) with true by (symmetry; apply Z.ltb_lt; lia).
  rewrite Z.max_l by lia.
  replace (Z.to_nat (- L + Z.of_nat (length data)))
    with (length data - Z.to_nat L)%nat by lia.
  reflexivity.
Qed.

(** C6.  A payload whose size does not exceed the large-file threshold is
    never corrupted: whatever the configuration (any probability, the bug
    enabled or not) and whatever the generator would draw, the handler
    reports [is_large_file = false] and [bug_triggered = false], hashes and
    schedules for writing the decompressed bytes as they are, and does not
    even consult the generator. *)
Theorem small_payload_never_corrupted `{Sha256} `{Zlib}
    (cfg : Server.Config) (req : Server.Request) (g : Rng)
    (fname csum : string) (data : bytes) :
  truthy (Server.q_filename req) = Some fname ->
  truthy (Server.q_checksum req) = Some csum ->
  z_decompress (Server.body req) = inr data ->
  Z.of_nat (length data) <= Server.LARGE_FILE_THRESHOLD cfg ->
  Server.corruption_block cfg data g = (false, data, g) /\
  Server.upload_file cfg req g =
  {| Server.response :=
       Server.ROk fname (String.eqb (sha256_hex data) csum) (sha256_hex data)
         (Server.q_compression_ratio req) (Z.of_nat (length data))
         (Z.of_nat (length (Server.body req))) false false;
     Server.scheduled_write := Some (fname, data);
     Server.rng_after := g |}.
Proof.
  intros Hf Hc Hd Hle.
  pose proof (corruption_block_small cfg data g Hle) as B.
  split; [exact B|].
  rewrite (upload_file_accepted cfg req g fname csum data Hf Hc Hd), B.
  replace (Z.of_nat (length data) >? Server.LARGE_FILE_THRESHOLD cfg)
    with false; [reflexivity|].
  symmetry; rewrite Z.gtb_ltb; now apply Z.ltb_ge.
Qed.

(** Three bytes under the shipped configuration, and two bytes (exactly the
    threshold) under the test configuration whose probability is 1. *)
Lemma small_payload_never_corrupted_witness :
  Server.upload_file (H := StoredLibs.sha) (H0 := StoredLibs.zlib)
    Server.config (Samples.upload_of "a" Samples.three_bytes) Samples.rng0 =
  {| Server.response :=
       Server.ROk "a" true "616263" (Some "1.0") 3 4 false false;
     Server.scheduled_write := Some ("a", Samples.three_bytes);
     Server.rng_after := Samples.rng0 |}
  /\
  Server.corruption_block Samples.tiny_config [Byte.x61; Byte.x62] Samples.rng0
  = (false, [Byte.x61; Byte.x62], Samples.rng0).
Proof.
  split.
  - exact (proj2 (small_payload_never_corrupted (H := StoredLibs.sha)
             (H0 := StoredLibs.zlib) Server.config
             (Samples.upload_of "a" Samples.three_bytes) Samples.rng0
             "a" "616263" Samples.three_bytes
             eq_refl eq_refl eq_refl ltac:(vm_compute; discriminate))).
  - exact (proj1 (small_payload_never_corrupted (H := StoredLibs.sha)
             (H0 := StoredLibs.zlib) Samples.tiny_config
             (Samples.upload_of "a" [Byte.x61; Byte.x62]) Samples.rng0
             "a" "6162" [Byte.x61; Byte.x62]
             eq_refl eq_refl eq_refl ltac:(vm_compute; discriminate))).
Defined.

(** C7.  Whenever the corruption block triggers, with a span [L > 0]: if
    the payload has at least [L] bytes, its length is unchanged, the bytes
    before the last [L] are unchanged and the last [L] bytes are zero; if it
    has fewer, the bytes are unchanged.  In both cases the handler reports
    [bug_triggered = true], and the bytes it hashes and schedules for
    writing are the bytes after the block. *)
Theorem triggered_corruption_zeroes_tail `{Sha256} `{Zlib}
    (cfg : Server.Config) (data : bytes) (g : Rng) (data1 : bytes) (g1 : Rng) :
  0 < Server.CORRUPT_TAIL_BYTES cfg ->
  Server.corruption_block cfg data g = (true, data1, g1) ->
  (Server.CORRUPT_TAIL_BYTES cfg <= Z.of_nat (length data) ->
     length data1 = length data /\
     firstn (length data - Z.to_nat (Server.CORRUPT_TAIL_BYTES cfg)) data1 =
     firstn (length data - Z.to_nat (Server.CORRUPT_TAIL_BYTES cfg)) data /\
     skipn (length data - Z.to_nat (Server.CORRUPT_TAIL_BYTES cfg)) data1 =
     repeat Byte.x00 (Z.to_nat (Server.CORRUPT_TAIL_BYTES cfg))) /\
  (Z.of_nat (length data) < Server.CORRUPT_TAIL_BYTES cfg -> data1 = data) /\
  forall req fname csum,
    truthy (Server.q_filename req) = Some fname ->
    truthy (Server.q_checksum req) = Some csum ->
    z_decompress (Server.body req) = inr data ->
    Server.upload_file cfg req g =
    {| Server.response :=
         Server.ROk fname (String.eqb (sha256_hex data1) csum)
           (sha256_hex data1) (Server.q_compression_ratio req)
           (Z.of_nat (length data)) (Z.of_nat (length (Server.body req)))
           (Z.of_nat (length data) >? Server.LARGE_FILE_THRESHOLD cfg) true;
       Server.scheduled_write := Some (fname, data1);
       Server.rng_after := g1 |}.
Proof.
  intros Hpos Hblock.
  set (L := Server.CORRUPT_TAIL_BYTES cfg) in *.
  destruct (corruption_block_cases cfg data g _ _ _ Hblock)
    as [[Ht _] | [[_ [Hle Hd]] | [_ [Hlt Hd]]]]; [discriminate| |].
  - fold L in Hle, Hd.
    rewrite (assign_tail_zeros data L Hpos Hle) in Hd.
    assert (Hlen : length (firstn (length data - Z.to_nat L) data)
                   = (length data - Z.to_nat L)%nat)
      by (rewrite length_firstn; lia).
    split; [|split].
    + intros _; subst data1; split; [|split].
      * rewrite length_app, Hlen, repeat_length; lia.
      * rewrite firstn_app, Hlen, Nat.sub_diag, firstn_O, app_nil_r.
        now rewrite firstn_firstn, Nat.min_id.
      * rewrite skipn_app, Hlen, Nat.sub_diag, skipn_O.
        rewrite skipn_all2 by (rewrite Hlen; lia). reflexivity.
    + intros Hlt; lia.
    + intros req fname csum Hf Hc Hz.
      now rewrite (upload_file_accepted cfg req g fname csum data Hf Hc Hz),
        Hblock.
  - fold L in Hlt; split; [|split].
    + intros Hle; lia.
    + intros _; exact Hd.
    + intros req fname csum Hf Hc Hz.
      now rewrite (upload_file_accepted cfg req g fname csum data Hf Hc Hz),
        Hblock.
Qed.

(** Six bytes and three bytes under the test configuration (threshold 2,
    span 4, probability 1): the first loses its last four bytes, the second
    is flagged and left as it is. *)
Lemma triggered_corruption_zeroes_tail_witness :
  (length Samples.six_zeroed = length Samples.six_bytes /\
   firstn 2 Samples.six_zeroed = firstn 2 Samples.six_bytes /\
   skipn 2 Samples.six_zeroed = repeat Byte.x00 4) /\
  Server.corruption_block Samples.tiny_config Samples.three_bytes Samples.rng0
  = (true, Samples.three_bytes, Samples.rng1) /\
  Server.upload_file (H := StoredLibs.sha) (H0 := StoredLibs.zlib)
    Samples.tiny_config (Samples.upload_of "a" Samples.three_bytes)
    Samples.rng0 =
  {| Server.response :=
       Server.ROk "a" true "616263" (Some "1.0") 3 4 true true;
     Server.scheduled_write := Some ("a", Samples.three_bytes);
     Server.rng_after := Samples.rng1 |}.
Proof.
  pose proof (triggered_corruption_zeroes_tail (H := StoredLibs.sha)
                (H0 := StoredLibs.zlib) Samples.tiny_config Samples.six_bytes
                Samples.rng0 Samples.six_zeroed Samples.rng1
                eq_refl eq_refl) as [Long _].
  pose proof (triggered_corruption_zeroes_tail (H := StoredLibs.sha)
                (H0 := StoredLibs.zlib) Samples.tiny_config Samples.three_bytes
                Samples.rng0 Samples.three_bytes Samples.rng1
                eq_refl eq_refl) as [_ [_ Short]].
  split; [exact (Long ltac:(vm_compute; discriminate))|].
  split; [reflexivity|].
  exact (Short (Samples.upload_of "a" Samples.three_bytes) "a" "616263"
           eq_refl eq_refl eq_refl).
Defined.

(** C2.  For every upload that passes the metadata check and decompresses,
    the digest the server reports is computed over the bytes that leave the
    corruption block, and [checksum_ok] is true exactly when that digest
    equals the checksum the client sent. *)
Theorem checksum_ok_compares_digest_after_corruption `{Sha256} `{Zlib}
    (cfg : Server.Config) (req : Server.Request) (g : Rng)
    (fname csum : string) (data : bytes) :
  truthy (Server.q_filename req) = Some fname ->
  truthy (Server.q_checksum req) = Some csum ->
  z_decompress (Server.body req) = inr data ->
  exists bug_triggered data1 g1 checksum_ok,
    Server.corruption_block cfg data g = (bug_triggered, data1, g1) /\
    Server.response (Server.upload_file cfg req g) =
      Server.ROk fname checksum_ok (sha256_hex data1)
        (Server.q_compression_ratio req) (Z.of_nat (length data))
        (Z.of_nat (length (Server.body req)))
        (Z.of_nat (length data) >? Server.LARGE_FILE_THRESHOLD cfg)
        bug_triggered /\
    Server.scheduled_write (Server.upload_file cfg req g)
      = Some (fname, data1) /\
    (checksum_ok = true <-> sha256_hex data1 = csum).
Proof.
  intros Hf Hc Hd.
  rewrite (upload_file_accepted cfg req g fname csum data Hf Hc Hd).
  destruct (Server.corruption_block cfg data g) as [[t d1] g1].
  exists t, d1, g1, (String.eqb (sha256_hex d1) csum).
  repeat split; cbn; try apply String.eqb_eq.
Qed.

(** Six bytes sent with the digest of the six bytes: the block zeroes four
    of them first, so the digest compared is that of the zeroed bytes and
    the check fails. *)
Lemma checksum_ok_compares_digest_after_corruption_witness :
  exists bug_triggered data1 g1 checksum_ok,
    Server.corruption_block Samples.tiny_config Samples.six_bytes Samples.rng0
      = (bug_triggered, data1, g1) /\
    Server.response
      (Server.upload_file (H := StoredLibs.sha) (H0 := StoredLibs.zlib)
         Samples.tiny_config (Samples.upload_of "a" Samples.six_bytes)
         Samples.rng0) =
      Server.ROk "a" checksum_ok (sha256_hex (H := StoredLibs.sha) data1)
        (Some "1.0") 6 7 true bug_triggered /\
    Server.scheduled_write
      (Server.upload_file (H := StoredLibs.sha) (H0 := StoredLibs.zlib)
         Samples.tiny_config (Samples.upload_of "a" Samples.six_bytes)
         Samples.rng0) = Some ("a", data1) /\
    (checksum_ok = true <->
     sha256_hex (H := StoredLibs.sha) data1 = "616263646566").
Proof.
  exact (checksum_ok_compares_digest_after_corruption (H := StoredLibs.sha)
           (H0 := StoredLibs.zlib) Samples.tiny_config
           (Samples.upload_of "a" Samples.six_bytes) Samples.rng0
           "a" "616263646566" Samples.six_bytes eq_refl eq_refl eq_refl).
Defined.

(** ** The client's codec *)

Lemma take_drop {A} (n : N) (l : list A) :
  Client.take n l ++ Client.drop n l = l.
Proof.
  revert n; induction l as [|x l IH]; intros n; cbn; [reflexivity|].
  destruct (n =? 0)%N; cbn; [reflexivity|].
  now rewrite IH.
Qed.

Lemma take_zero {A} (l : list A) : Client.take 0 l = [].
Proof. now destruct l. Qed.

Lemma take_nil_inv {A} (n : N) (l : list A) :
  (0 < n)%N -> Client.take n l = [] -> l = [].
Proof.
  intros Hn; destruct l as [|x l]; cbn; [reflexivity|].
  destruct (n =? 0)%N eqn:E; [apply N.eqb_eq in E; lia | discriminate].
Qed.

Lemma drop_shorter {A} (n : N) (l : list A) :
  Client.take n l <> [] -> (length (Client.drop n l) < length l)%nat.
Proof.
  intros Hne.
  rewrite <- (take_drop n l) at 2; rewrite length_app.
  destruct (Client.take n l); [congruence | cbn; lia].
Qed.

Section CodecFacts.
Context `{Sha256} `{Zlib}.

Lemma concat_append_nonempty (parts : list bytes) (part : bytes) :
  concat (Client.append_nonempty parts part) = concat parts ++ part.
Proof.
  destruct part as [|b part]; cbn; [now rewrite app_nil_r|].
  now rewrite concat_app; cbn; rewrite app_nil_r.
Qed.

Lemma concat_fold_append_nonempty (parts acc : list bytes) :
  concat (fold_left Client.append_nonempty parts acc)
  = concat acc ++ concat parts.
Proof.
  revert acc; induction parts as [|p parts IH]; intros acc; cbn.
  - now rewrite app_nil_r.
  - now rewrite IH, concat_append_nonempty, <- app_assoc.
Qed.

(** Under the streaming law, updating chunk after chunk is updating once
    with everything. *)
Lemma fold_update_streams (chunks : list bytes) (s : sha_state) (c : bytes) :
  sha256_streams ->
  fold_left sha256_update chunks (sha256_update s c)
  = sha256_update s (c ++ concat chunks).
Proof.
  intros Hs; revert c; induction chunks as [|d chunks IH]; intros c; cbn.
  - now rewrite app_nil_r.
  - now rewrite Hs, IH, app_assoc.
Qed.

(** With a positive chunk size and enough fuel the loop reads the whole
    file as a sequence of non-empty chunks and stops. *)
Lemma read_loop_reads_all (chunk_size : N) (fuel : nat) :
  (0 < chunk_size)%N ->
  forall (f : bytes) (st : Client.LoopState),
  (length f < fuel)%nat ->
  exists chunks,
    concat chunks = f /\
    (f <> [] -> chunks <> []) /\
    Client.read_loop fuel chunk_size f st
      = Some (Client.after_chunks st chunks).
Proof.
  intros Hn; induction fuel as [|fuel IH]; intros f st Hlt; [lia|].
  cbn [Client.read_loop Client.read].
  destruct (Client.take chunk_size f) as [|b chunk] eqn:Et.
  - exists []; apply (take_nil_inv _ _ Hn) in Et; subst f.
    split; [reflexivity|]. split; [congruence|].
    destruct st; unfold Client.after_chunks; cbn.
    now rewrite !Z.add_0_r.
  - assert (Hshort : (length (Client.drop chunk_size f) < length f)%nat)
      by (apply drop_shorter; rewrite Et; discriminate).
    destruct (z_compress (Client.compressor st) (b :: chunk))
      as [z1 part] eqn:Ez.
    match goal with
    | |- context [Client.read_loop fuel chunk_size _ ?s] =>
        destruct (IH (Client.drop chunk_size f) s ltac:(lia))
          as [chunks [Hc [_ Hrun]]]; rewrite Hrun
    end.
    exists ((b :: chunk) :: chunks).
    split; [cbn [concat]; rewrite Hc, <- Et; apply take_drop|].
    split; [discriminate|].
    f_equal; unfold Client.after_chunks; cbn -[Z.of_nat Z.add].
    rewrite Ez.
    destruct (z_feed z1 chunks) as [parts z2]; cbn -[Z.of_nat Z.add].
    f_equal.
    + rewrite length_app. cbn [length]. lia.
    + lia.
Qed.

(** With a chunk size of 0 the first read is empty and the loop stops at
    once. *)
Lemma read_loop_zero (fuel : nat) (f : bytes) (st : Client.LoopState) :
  Client.read_loop (S fuel) 0 f st = Some st.
Proof. cbn [Client.read_loop Client.read]; now rewrite take_zero. Qed.

End CodecFacts.

(** What [read_and_compress] returns when the libraries obey their laws. *)
Lemma read_and_compress_lawful `{Sha256} `{Zlib}
    (file : bytes) (chunk_size : N) :
  sha256_streams -> zlib_roundtrips ->
  (0 < chunk_size)%N -> file <> [] ->
  exists c,
    Client.read_and_compress file chunk_size = Some c /\
    z_decompress (Client.compressed c) = inr file /\
    Client.checksum c = sha256_hex file /\
    Client.c_original_size c = Z.of_nat (length file) /\
    Client.c_compressed_size c = Z.of_nat (length (Client.compressed c)).
Proof.
  intros Hsha Hz Hn Hne; unfold Client.read_and_compress.
  destruct (read_loop_reads_all chunk_size (S (length file)) Hn file
              Client.loop_init ltac:(lia)) as [chunks [Hc [Hnn Hrun]]].
  rewrite Hrun; cbn [option_map].
  eexists; split; [reflexivity|].
  unfold Client.finish, Client.after_chunks.
  cbn [Client.compressed Client.checksum Client.c_original_size
       Client.c_compressed_size Client.sha Client.compressor
       Client.compressed_parts Client.l_original_size Client.loop_init].
  split; [|split; [|split; [|reflexivity]]].
  - rewrite concat_append_nonempty, concat_fold_append_nonempty.
    cbn [concat app].
    rewrite <- Hc; etransitivity; [|exact (Hz chunks)]; unfold z_stream.
    now destruct (z_feed compressobj chunks) as [parts z].
  - destruct chunks as [|c chunks]; [now specialize (Hnn Hne)|].
    cbn [fold_left]; rewrite (fold_update_streams chunks _ c Hsha).
    unfold sha256_hex; now rewrite <- Hc.
  - now rewrite Hc.
Qed.

(** C8.  Given a streaming hash and a gzip stream that obey their laws,
    for every non-empty file and every positive chunk size
    [read_and_compress] returns, decompressing the bytes it produced gives
    back the file, and the digest it computed chunk by chunk is the digest
    of the whole file hashed in one pass.  The sizes it reports are those
    of the file and of the compressed bytes. *)
Theorem read_and_compress_roundtrip `{Sha256} `{Zlib}
    (file : bytes) (chunk_size : N) :
  sha256_streams -> zlib_roundtrips ->
  (0 < chunk_size)%N -> file <> [] ->
  exists c,
    Client.read_and_compress file chunk_size = Some c /\
    z_decompress (Client.compressed c) = inr file /\
    Client.checksum c = sha256_hex file /\
    Client.c_original_size c = Z.of_nat (length file) /\
    Client.c_compressed_size c = Z.of_nat (length (Client.compressed c)).
Proof. apply read_and_compress_lawful. Qed.

(** Six bytes read four at a time through the stored framing. *)
Lemma read_and_compress_roundtrip_witness :
  exists c,
    Client.read_and_compress (H := StoredLibs.sha) (H0 := StoredLibs.zlib)
      Samples.six_bytes 4 = Some c /\
    z_decompress (Zlib := StoredLibs.zlib) (Client.compressed c)
      = inr Samples.six_bytes /\
    Client.checksum c = sha256_hex (H := StoredLibs.sha) Samples.six_bytes /\
    Client.c_original_size c = 6 /\
    Client.c_compressed_size c = Z.of_nat (length (Client.compressed c)).
Proof.
  exact (read_and_compress_roundtrip (H := StoredLibs.sha)
           (H0 := StoredLibs.zlib) Samples.six_bytes 4
           stored_sha256_streams stored_zlib_roundtrips
           eq_refl ltac:(discriminate)).
Defined.

(** C9.  [read_and_compress] always returns, and the ratio it returns is
    [compressed_size / original_size] when [original_size > 0] and exactly
    1 otherwise, where [compressed_size] is the length of the compressed
    bytes and [original_size], never negative, is the number of bytes read
    (the length of the file for a positive chunk size). *)
Theorem compression_ratio_defined `{Sha256} `{Zlib}
    (file : bytes) (chunk_size : N) :
  exists c,
    Client.read_and_compress file chunk_size = Some c /\
    Client.c_compression_ratio c =
      (if Client.c_original_size c >? 0
       then truediv (Client.c_compressed_size c) (Client.c_original_size c)
       else 1%Q) /\
    Client.c_compressed_size c = Z.of_nat (length (Client.compressed c)) /\
    Client.c_original_size c =
      (if (chunk_size =? 0)%N then 0 else Z.of_nat (length file)).
Proof.
  unfold Client.read_and_compress.
  destruct (chunk_size =? 0)%N eqn:E.
  - apply N.eqb_eq in E; subst chunk_size.
    rewrite read_loop_zero; cbn [option_map].
    eexists; split; [reflexivity|]; cbn; repeat split.
  - apply N.eqb_neq in E.
    destruct (read_loop_reads_all chunk_size (S (length file)) ltac:(lia)
                file Client.loop_init ltac:(lia)) as [chunks [Hc [_ Hrun]]].
    rewrite Hrun; cbn [option_map].
    eexists; split; [reflexivity|].
    unfold Client.finish, Client.after_chunks.
    cbn [Client.compressed Client.c_compression_ratio Client.c_original_size
         Client.c_compressed_size Client.l_original_size Client.loop_init].
    rewrite Hc; repeat split.
Qed.

(** ** The analyzer: the dictionary of counters *)

Section Dictionary.
Import Analyzer Measure.

Lemma assoc_bump_same (n : string) (f : bool) (st : list (string * Stats)) :
  assoc n (bump n f st) = Some (incr f (stat_of n st)).
Proof.
  unfold stat_of; induction st as [|[k s] st IH]; cbn.
  - now rewrite String.eqb_refl.
  - destruct (String.eqb k n) eqn:E; cbn; now rewrite E.
Qed.

Lemma assoc_bump_other (n m : string) (f : bool) (st : list (string * Stats)) :
  m <> n -> assoc m (bump n f st) = assoc m st.
Proof.
  intros Hne; induction st as [|[k s] st IH]; cbn.
  - destruct (String.eqb n m) eqn:E; [|reflexivity].
    apply String.eqb_eq in E; congruence.
  - destruct (String.eqb k n) eqn:E; cbn.
    + apply String.eqb_eq in E; subst k.
      destruct (String.eqb n m) eqn:E'; [|reflexivity].
      apply String.eqb_eq in E'; congruence.
    + now rewrite IH.
Qed.

Lemma stat_of_bump (n m : string) (f : bool) (st : list (string * Stats)) :
  stat_of m (bump n f st)
  = if String.eqb n m then incr f (stat_of m st) else stat_of m st.
Proof.
  destruct (String.eqb n m) eqn:E.
  - apply String.eqb_eq in E; subst m.
    unfold stat_of at 1; now rewrite assoc_bump_same.
  - apply String.eqb_neq in E.
    unfold stat_of; rewrite assoc_bump_other; [reflexivity | congruence].
Qed.

Lemma keys_bump (n : string) (f : bool) (st : list (string * Stats)) :
  map fst (bump n f st) = add_key (map fst st) n.
Proof.
  unfold add_key; induction st as [|[k s] st IH]; cbn; [reflexivity|].
  rewrite (String.eqb_sym n k).
  destruct (String.eqb k n); cbn; [reflexivity|].
  rewrite IH; now destruct (existsb (String.eqb n) (map fst st)).
Qed.

Lemma existsb_eqb_In (n : string) (keys : list string) :
  existsb (String.eqb n) keys = true <-> In n keys.
Proof.
  rewrite existsb_exists; split.
  - intros [k [Hin E]]; apply String.eqb_eq in E; now subst k.
  - intros Hin; exists n; split; [exact Hin | apply String.eqb_refl].
Qed.

Lemma NoDup_add_key (keys : list string) (n : string) :
  NoDup keys -> NoDup (add_key keys n).
Proof.
  intros Hnd; unfold add_key.
  destruct (existsb (String.eqb n) keys) eqn:E; [exact Hnd|].
  apply NoDup_app; [exact Hnd | repeat constructor; intros [] | ].
  intros x Hin [<- | []].
  apply existsb_eqb_In in Hin; congruence.
Qed.

Lemma assoc_In (n : string) (s : Stats) (st : list (string * Stats)) :
  NoDup (map fst st) -> In (n, s) st -> assoc n st = Some s.
Proof.
  induction st as [|[k s'] st IH]; cbn; [easy|].
  intros Hnd [[= -> ->] | Hin].
  - now rewrite String.eqb_refl.
  - inversion Hnd as [|? ? Hk Hnd']; subst.
    destruct (String.eqb k n) eqn:E; [|now apply IH].
    apply String.eqb_eq in E; subst k.
    exfalso; apply Hk; now apply (in_map fst) in Hin.
Qed.

Lemma assoc_None (n : string) (st : list (string * Stats)) :
  ~ In n (map fst st) -> assoc n st = None.
Proof.
  induction st as [|[k s] st IH]; cbn; [easy|].
  intros Hnot; destruct (String.eqb k n) eqn:E.
  - apply String.eqb_eq in E; subst k; exfalso; apply Hnot; now left.
  - apply IH; intros Hin; apply Hnot; now right.
Qed.

Lemma bump_entries_ok (n : string) (f : bool) (st : list (string * Stats)) :
  Forall entry_ok st -> Forall entry_ok (bump n f st).
Proof.
  induction st as [|[k s] st IH]; cbn; intros Hok.
  - repeat constructor; destruct f; cbn; lia.
  - inversion Hok as [|? ? [H1 [H2 [H3 H4]]] Hrest]; subst; cbn in *.
    destruct (String.eqb k n).
    + constructor; [|exact Hrest].
      unfold entry_ok; destruct f; cbn; lia.
    + constructor; [unfold entry_ok; cbn; lia | now apply IH].
Qed.

End Dictionary.

(** ** The analyzer: the two loops *)

Section Accumulation.
Import Analyzer Measure.

Lemma define_predicates_NoDup (row : Row) :
  NoDup (map fst (define_predicates row)).
Proof.
  cbn; repeat (constructor; [cbn; intuition discriminate|]); constructor.
Qed.

Lemma fold_preds_stat (f : bool) (ps : list (string * bool)) :
  NoDup (map fst ps) ->
  forall (st : list (string * Stats)) (m : string),
  stat_of m
    (fold_left
       (fun (stats : list (string * Stats)) '(name, value) =>
          if (value : bool) then bump name f stats else stats) ps st)
  = if match assoc m ps with Some value => value | None => false end
    then incr f (stat_of m st) else stat_of m st.
Proof.
  induction ps as [|[k v] ps IH]; intros Hnd st m; cbn; [reflexivity|].
  inversion Hnd as [|? ? Hk Hnd']; subst.
  rewrite (IH Hnd').
  destruct (String.eqb k m) eqn:E.
  - apply String.eqb_eq in E; subst m.
    replace (assoc k ps) with (@None bool).
    + destruct v; [|reflexivity].
      now rewrite stat_of_bump, String.eqb_refl.
    + clear -Hk; induction ps as [|[k' v'] ps IH]; cbn; [reflexivity|].
      destruct (String.eqb k' k) eqn:E.
      * apply String.eqb_eq in E; subst k'; exfalso; apply Hk; now left.
      * apply IH; intros Hin; apply Hk; now right.
  - destruct v; [|reflexivity].
    now rewrite stat_of_bump, E.
Qed.

Lemma fold_preds_keys (f : bool) (ps : list (string * bool)) :
  forall st : list (string * Stats),
  map fst
    (fold_left
       (fun (stats : list (string * Stats)) '(name, value) =>
          if (value : bool) then bump name f stats else stats) ps st)
  = fold_left add_key (map fst (filter snd ps)) (map fst st).
Proof.
  induction ps as [|[k v] ps IH]; intros st; cbn; [reflexivity|].
  rewrite IH; destruct v; cbn; [now rewrite keys_bump | reflexivity].
Qed.

Lemma fold_preds_ok (f : bool) (ps : list (string * bool)) :
  forall st : list (string * Stats),
  Forall entry_ok st ->
  Forall entry_ok
    (fold_left
       (fun (stats : list (string * Stats)) '(name, value) =>
          if (value : bool) then bump name f stats else stats) ps st).
Proof.
  induction ps as [|[k v] ps IH]; intros st Hok; cbn; [exact Hok|].
  apply IH; destruct v; [now apply bump_entries_ok | exact Hok].
Qed.

Lemma row_update_stat (st : list (string * Stats)) (row : Row) (m : string) :
  stat_of m (row_update st row) = tally m (stat_of m st) row.
Proof.
  unfold row_update, tally, holds.
  apply fold_preds_stat, define_predicates_NoDup.
Qed.

Lemma rows_stat (m : string) (rows : list Row) :
  forall st : list (string * Stats),
  stat_of m (fold_left row_update rows st)
  = fold_left (tally m) rows (stat_of m st).
Proof.
  induction rows as [|row rows IH]; intros st; cbn [fold_left]; [reflexivity|].
  now rewrite IH, row_update_stat.
Qed.

Lemma rows_keys (rows : list Row) :
  forall st : list (string * Stats),
  map fst (fold_left row_update rows st)
  = fold_left add_key (concat (map true_names rows)) (map fst st).
Proof.
  induction rows as [|row rows IH]; intros st;
    cbn [fold_left map concat]; [reflexivity|].
  rewrite IH, fold_left_app; f_equal.
  unfold row_update, true_names; apply fold_preds_keys.
Qed.

Lemma rows_ok (rows : list Row) :
  forall st : list (string * Stats),
  Forall entry_ok st -> Forall entry_ok (fold_left row_update rows st).
Proof.
  induction rows as [|row rows IH]; intros st Hok; cbn [fold_left];
    [exact Hok|].
  apply IH; unfold row_update; now apply fold_preds_ok.
Qed.

Lemma fold_add_key_NoDup (names keys : list string) :
  NoDup keys -> NoDup (fold_left add_key names keys).
Proof.
  revert keys; induction names as [|n names IH]; intros keys Hnd; cbn;
    [exact Hnd | now apply IH, NoDup_add_key].
Qed.

Lemma count_cons (p : Row -> bool) (row : Row) (rows : list Row) :
  count p (row :: rows) = (if p row then 1 else 0) + count p rows.
Proof. unfold count; cbn; destruct (p row); cbn [length]; lia. Qed.

Lemma tally_counts (m : string) (rows : list Row) :
  forall s : Stats,
  s_support (fold_left (tally m) rows s) = s_support s + support_of m rows /\
  s_failed_P (fold_left (tally m) rows s) = s_failed_P s + failed_of m rows /\
  s_passed_P (fold_left (tally m) rows s) = s_passed_P s + passed_of m rows.
Proof.
  unfold support_of, failed_of, passed_of.
  induction rows as [|row rows IH]; intros s; cbn [fold_left].
  - unfold count; cbn; lia.
  - rewrite !count_cons.
    destruct (IH (tally m s row)) as [-> [-> ->]].
    unfold tally; destruct (holds m row); cbn [andb];
      [|repeat split; lia].
    destruct (py_bool (failed row));
      cbn [negb incr s_support s_failed_P s_passed_P]; repeat split; lia.
Qed.

(** The dictionary after the first loop: one entry per predicate that is
    true of some row, in the order of first sight, holding the three
    counts of that predicate over the rows. *)
Lemma accumulate_counts (rows : list Row) :
  map fst (accumulate rows) = first_seen rows /\
  NoDup (map fst (accumulate rows)) /\
  Forall entry_ok (accumulate rows) /\
  forall m s, In (m, s) (accumulate rows) ->
    s_support s = support_of m rows /\
    s_failed_P s = failed_of m rows /\
    s_passed_P s = passed_of m rows.
Proof.
  unfold accumulate, first_seen.
  pose proof (rows_keys rows []) as Hk; cbn [map] in Hk.
  split; [exact Hk|].
  assert (Hnd : NoDup (map fst (fold_left row_update rows [])))
    by (rewrite Hk; apply fold_add_key_NoDup; constructor).
  split; [exact Hnd|].
  split; [apply rows_ok; constructor|].
  intros m s Hin.
  pose proof (assoc_In m s _ Hnd Hin) as Ha.
  pose proof (rows_stat m rows []) as Hs.
  unfold stat_of at 1 in Hs; rewrite Ha in Hs; cbn in Hs.
  destruct (tally_counts m rows default_stats) as [H1 [H2 H3]].
  rewrite <- Hs in H1, H2, H3; cbn in H1, H2, H3.
  repeat split; assumption.
Qed.

(** A predicate has an entry exactly when it is true of some row. *)
Lemma accumulate_keys (rows : list Row) (m : string) :
  In m (map fst (accumulate rows)) <-> 1 <= support_of m rows.
Proof.
  destruct (accumulate_counts rows) as [_ [Hnd [Hok Hcount]]].
  split.
  - intros Hin; apply in_map_iff in Hin; destruct Hin as [[k s] [Hk Hin]].
    cbn in Hk; subst k.
    destruct (Hcount m s Hin) as [<- _].
    rewrite Forall_forall in Hok; apply (Hok (m, s) Hin).
  - intros Hsup.
    destruct (in_dec string_dec m (map fst (accumulate rows))) as [Hin|Hnot];
      [exact Hin | exfalso].
    pose proof (rows_stat m rows []) as Hs; fold (accumulate rows) in Hs.
    unfold stat_of at 1 in Hs; rewrite (assoc_None m _ Hnot) in Hs.
    destruct (tally_counts m rows default_stats) as [H1 _].
    unfold stat_of in Hs; cbn in Hs; rewrite <- Hs in H1; cbn in H1; lia.
Qed.

End Accumulation.

(** ** The analyzer: the sort *)

Section Sorting.
Import Analyzer Measure.

Lemma Qltb_true (x y : Q) : Qltb x y = true <-> (x < y)%Q.
Proof.
  unfold Qltb; rewrite negb_true_iff; split.
  - intros E; apply Qnot_le_lt; intros Hle.
    apply Qle_bool_iff in Hle; congruence.
  - intros Hlt; destruct (Qle_bool y x) eqn:E; [|reflexivity].
    apply Qle_bool_iff in E; lra.
Qed.

Lemma Qltb_false (x y : Q) : Qltb x y = false <-> (y <= x)%Q.
Proof.
  unfold Qltb; rewrite negb_false_iff; apply Qle_bool_iff.
Qed.

Lemma key_lt_false (x y : PredResult) : key_lt x y = false -> key_ge x y.
Proof.
  unfold key_lt, key_ge.
  destruct (increase x ?= increase y)%Q eqn:E; [|discriminate|].
  - apply Qeq_alt in E; intros Hf; apply Qltb_false in Hf; now right.
  - apply Qgt_alt in E; intros _; now left.
Qed.

(** [key_lt x y] is a strict order on the keys. *)
Lemma key_lt_true (x y : PredResult) :
  key_lt x y = true ->
  (increase x < increase y)%Q \/
  ((increase x == increase y)%Q /\ (failure_P x < failure_P y)%Q).
Proof.
  unfold key_lt.
  destruct (increase x ?= increase y)%Q eqn:E; [| |discriminate].
  - apply Qeq_alt in E; intros Ht; apply Qltb_true in Ht; now right.
  - apply Qlt_alt in E; intros _; now left.
Qed.

Lemma key_ge_trans (x y z : PredResult) :
  key_ge x y -> key_ge y z -> key_ge x z.
Proof.
  unfold key_ge; intros [H1 | [H1 H1']] [H2 | [H2 H2']].
  - left; lra.
  - left; lra.
  - left; lra.
  - right; split; lra.
Qed.

Lemma same_key_true (a b : PredResult) :
  same_key a b = true <->
  (increase a == increase b)%Q /\ (failure_P a == failure_P b)%Q.
Proof.
  unfold same_key; now rewrite andb_true_iff, !Qeq_bool_iff.
Qed.

Lemma insert_desc_perm (x : PredResult) (l : list PredResult) :
  Permutation (insert_desc x l) (x :: l).
Proof.
  induction l as [|y l IH]; cbn; [reflexivity|].
  destruct (key_lt x y); [|reflexivity].
  rewrite IH; apply perm_swap.
Qed.

Lemma sort_desc_perm (l : list PredResult) : Permutation (sort_desc l) l.
Proof.
  induction l as [|x l IH]; cbn; [reflexivity|].
  now rewrite insert_desc_perm, IH.
Qed.

Lemma insert_desc_sorted (x : PredResult) (l : list PredResult) :
  StronglySorted key_ge l -> StronglySorted key_ge (insert_desc x l).
Proof.
  induction l as [|y l IH]; cbn; intros Hs; [repeat constructor|].
  inversion Hs as [|? ? Hl Hy]; subst.
  destruct (key_lt x y) eqn:E.
  - constructor; [now apply IH|].
    rewrite Forall_forall; intros z Hz.
    apply (Permutation_in _ (insert_desc_perm x l)) in Hz.
    destruct Hz as [<- | Hz].
    + apply key_lt_true in E; unfold key_ge; destruct E as [E | [E E']];
        [left; lra | right; split; lra].
    + rewrite Forall_forall in Hy; now apply Hy.
  - apply key_lt_false in E.
    constructor; [exact Hs|].
    constructor; [exact E|].
    rewrite Forall_forall in *; intros z Hz.
    apply (key_ge_trans x y z E), Hy, Hz.
Qed.

Lemma sort_desc_sorted (l : list PredResult) :
  StronglySorted key_ge (sort_desc l).
Proof.
  induction l as [|x l IH]; cbn; [constructor | now apply insert_desc_sorted].
Qed.

(** Insertion does not reorder entries with equal keys: [x], which came
    first, stays in front of those of [l] that share its key. *)
Lemma insert_desc_stable (r0 x : PredResult) (l : list PredResult) :
  filter (same_key r0) (insert_desc x l) = filter (same_key r0) (x :: l).
Proof.
  induction l as [|y l IH]; [reflexivity|].
  cbn [insert_desc]; destruct (key_lt x y) eqn:E; [|reflexivity].
  cbn [filter] in *; rewrite IH.
  destruct (same_key r0 x) eqn:Ex; [|reflexivity].
  destruct (same_key r0 y) eqn:Ey; [exfalso|reflexivity].
  apply same_key_true in Ex, Ey; apply key_lt_true in E.
  destruct Ex, Ey, E as [E | [E E']]; lra.
Qed.

Lemma sort_desc_stable (r0 : PredResult) (l : list PredResult) :
  filter (same_key r0) (sort_desc l) = filter (same_key r0) l.
Proof.
  induction l as [|x l IH]; [reflexivity|].
  cbn [sort_desc]; rewrite insert_desc_stable; cbn [filter].
  now rewrite IH.
Qed.

End Sorting.

(** ** The analyzer: baseline and scores *)

Section Scoring.
Import Analyzer Measure.

Lemma fold_add_from (l : list Z) (a : Z) :
  fold_left Z.add l a = a + sum l.
Proof.
  unfold sum; revert a; induction l as [|x l IH]; intros a; cbn [fold_left];
    [lia|].
  rewrite (IH (a + x)), (IH (0 + x)); lia.
Qed.

Lemma sum_cons (x : Z) (l : list Z) : sum (x :: l) = x + sum l.
Proof. unfold sum at 1; cbn [fold_left]; rewrite fold_add_from; lia. Qed.

(** On recorded rows the sum of the [failed] column counts the failed
    rows, and lies between 0 and the number of rows. *)
Lemma total_failed_counts (rows : list Row) :
  Forall recorded rows ->
  sum (map failed rows) = count (fun r => py_bool (failed r)) rows /\
  0 <= sum (map failed rows) <= Z.of_nat (length rows).
Proof.
  induction 1 as [|row rows Hrow _ [IH1 IH2]]; [cbn; lia|].
  cbn [map]; rewrite sum_cons, count_cons, IH1 in *.
  cbn [length]; rewrite Nat2Z.inj_succ.
  destruct Hrow as [E | E]; rewrite E;
    [change (py_bool 0) with false | change (py_bool 1) with true];
    cbv iota; lia.
Qed.

Lemma truediv_unit (a b : Z) :
  0 <= a <= b -> 0 < b -> (0 <= truediv a b <= 1)%Q.
Proof.
  intros [Ha Hab] Hb; unfold truediv.
  assert (Hb' : (0 < inject_Z b)%Q)
    by (change 0%Q with (inject_Z 0); now rewrite <- Zlt_Qlt).
  split.
  - apply Qle_shift_div_l; [exact Hb'|].
    rewrite Qmult_0_l; change 0%Q with (inject_Z 0); now rewrite <- Zle_Qle.
  - apply Qle_shift_div_r; [exact Hb'|].
    rewrite Qmult_1_l; now rewrite <- Zle_Qle.
Qed.

Lemma analyze_nonempty (rows : list Row) :
  rows <> [] ->
  analyze_predicates rows (compute_baseline rows)
  = ([], Some (sort_desc (map (score (compute_baseline rows))
                            (accumulate rows)))).
Proof.
  intros Hne; unfold analyze_predicates; cbn [compute_baseline total_runs].
  destruct rows as [|row rows]; [congruence|].
  replace (Z.of_nat (length (row :: rows)) =? 0) with false; [reflexivity|].
  symmetry; apply Z.eqb_neq; cbn [length]; lia.
Qed.

Lemma analyze_returns (rows : list Row) (out : list PredResult) :
  snd (analyze_predicates rows (compute_baseline rows)) = Some out ->
  rows <> [] /\
  out = sort_desc (map (score (compute_baseline rows)) (accumulate rows)).
Proof.
  destruct rows as [|row rows]; [discriminate|].
  rewrite analyze_nonempty by discriminate; cbn [snd].
  intros [= <-]; split; [discriminate | reflexivity].
Qed.

(** Every ranked entry is the score of an entry of the dictionary. *)
Lemma ranked_entry (rows : list Row) (out : list PredResult) (r : PredResult) :
  snd (analyze_predicates rows (compute_baseline rows)) = Some out ->
  In r out ->
  exists s, In (name r, s) (accumulate rows) /\
            r = score (compute_baseline rows) (name r, s).
Proof.
  intros Hout Hin; destruct (analyze_returns rows out Hout) as [_ ->].
  apply (Permutation_in _ (sort_desc_perm _)) in Hin.
  apply in_map_iff in Hin; destruct Hin as [[k s] [<- Hin]].
  exists s; split; [exact Hin | reflexivity].
Qed.

End Scoring.

(** ** The analyzer: the claims *)

Section AnalyzerClaims.
Import Analyzer Measure.

(** C3.  The baseline is [total_failed / total_runs] (0 without rows),
    [total_failed] being the sum of the [failed] column, which on recorded
    rows is the number of failed rows.  For every ranked predicate the
    three counters are the numbers of rows, of failed rows and of passed
    rows of which the predicate is true; [failure_P] is
    [failed_P / total_failed] (0 when nothing failed) and [increase] is
    [failed_P / support] (0 without support) minus the baseline.  On the
    four-record example the baseline is 1/2 and P1 has support 3,
    [failed_P] 2, [failure_P] 1 and [increase] 2/3 - 1/2. *)
Theorem analyzer_scoring :
  (forall rows,
     total_runs (compute_baseline rows) = Z.of_nat (length rows) /\
     total_failed (compute_baseline rows) = sum (map failed rows) /\
     baseline_failure_rate (compute_baseline rows) =
       (if Z.of_nat (length rows) >? 0
        then truediv (sum (map failed rows)) (Z.of_nat (length rows))
        else 0%Q) /\
     (Forall recorded rows ->
      sum (map failed rows) = count (fun r => py_bool (failed r)) rows)) /\
  (forall rows out r,
     snd (analyze_predicates rows (compute_baseline rows)) = Some out ->
     In r out ->
     support r = support_of (name r) rows /\
     failed_P r = failed_of (name r) rows /\
     passed_P r = passed_of (name r) rows /\
     failure_P r =
       (if total_failed (compute_baseline rows) >? 0
        then truediv (failed_of (name r) rows)
               (total_failed (compute_baseline rows))
        else 0%Q) /\
     increase r =
       ((if support_of (name r) rows >? 0
         then truediv (failed_of (name r) rows) (support_of (name r) rows)
         else 0)
        - baseline_failure_rate (compute_baseline rows))%Q) /\
  ((baseline_failure_rate (compute_baseline Samples.four_rows) == 1 # 2)%Q /\
   exists out p1,
     snd (analyze_predicates Samples.four_rows
            (compute_baseline Samples.four_rows)) = Some out /\
     In p1 out /\
     name p1 = "P1_is_large_file" /\
     support p1 = 3 /\ failed_P p1 = 2 /\
     (failure_P p1 == 1)%Q /\
     (increase p1 == (2 # 3) - (1 # 2))%Q).
Proof.
  split; [|split].
  - intros rows; repeat split.
    intros Hrec; apply total_failed_counts, Hrec.
  - intros rows out r Hout Hin.
    destruct (ranked_entry rows out r Hout Hin) as [s [Hs Hr]].
    destruct (accumulate_counts rows) as [_ [_ [_ Hcount]]].
    destruct (Hcount _ _ Hs) as [H1 [H2 H3]].
    rewrite Hr; cbn [score support failed_P passed_P failure_P increase name].
    unfold failure_rate_when_P; rewrite H1, H2, H3; repeat split.
  - split; [vm_compute; reflexivity|].
    eexists; exists Samples.p1_entry.
    split; [vm_compute; reflexivity|].
    split; [cbn; tauto|].
    repeat split; vm_compute; reflexivity.
Qed.

(** The example rows and their P1 entry under the general part. *)
Lemma analyzer_scoring_witness :
  support Samples.p1_entry = support_of "P1_is_large_file" Samples.four_rows /\
  failed_P Samples.p1_entry = failed_of "P1_is_large_file" Samples.four_rows /\
  passed_P Samples.p1_entry = passed_of "P1_is_large_file" Samples.four_rows.
Proof.
  pose proof (proj1 (proj2 analyzer_scoring) Samples.four_rows
                (sort_desc (map (score (compute_baseline Samples.four_rows))
                              (accumulate Samples.four_rows)))
                Samples.p1_entry eq_refl
                ltac:(vm_compute; tauto)) as [H1 [H2 [H3 _]]].
  exact (conj H1 (conj H2 H3)).
Defined.

(** C10.  Every ranked predicate has [support = failed_P + passed_P] and
    [support >= 1], with both counters non-negative; hence the failure rate
    when the predicate holds lies in [0, 1], and, on recorded rows (the
    [failed] column 0 or 1, so that the baseline lies in [0, 1] too),
    [increase] lies in [-1, 1]. *)
Theorem ranked_entry_bounds (rows : list Row) (out : list PredResult)
    (r : PredResult) :
  snd (analyze_predicates rows (compute_baseline rows)) = Some out ->
  In r out ->
  support r = failed_P r + passed_P r /\
  1 <= support r /\
  0 <= failed_P r /\ 0 <= passed_P r /\
  (0 <= failure_rate_when_P (failed_P r) (support r) <= 1)%Q /\
  increase r =
    (failure_rate_when_P (failed_P r) (support r)
     - baseline_failure_rate (compute_baseline rows))%Q /\
  (Forall recorded rows -> (-1 <= increase r <= 1)%Q).
Proof.
  intros Hout Hin.
  destruct (ranked_entry rows out r Hout Hin) as [s [Hs Hr]].
  destruct (accumulate_counts rows) as [_ [_ [Hok _]]].
  rewrite Forall_forall in Hok.
  destruct (Hok _ Hs) as [E [Hsup [Hf Hp]]]; cbn [snd] in *.
  assert (Hrate :
            (0 <= failure_rate_when_P (s_failed_P s) (s_support s) <= 1)%Q).
  { unfold failure_rate_when_P.
    replace (s_support s >? 0) with true
      by (symmetry; rewrite Z.gtb_ltb; apply Z.ltb_lt; lia).
    apply truediv_unit; lia. }
  rewrite Hr; cbn [score support failed_P passed_P failure_P increase name].
  repeat (split; [first [exact E | exact Hsup | exact Hf | exact Hp
                        | apply Hrate | reflexivity]|]).
  intros Hrec.
  destruct (analyze_returns rows out Hout) as [Hne _].
  destruct (total_failed_counts rows Hrec) as [_ Hb].
  assert (Hbase : (0 <= baseline_failure_rate (compute_baseline rows) <= 1)%Q).
  { cbn [compute_baseline baseline_failure_rate].
    assert (0 < Z.of_nat (length rows))
      by (destruct rows; [congruence | cbn [length]; lia]).
    replace (Z.of_nat (length rows) >? 0) with true
      by (symmetry; rewrite Z.gtb_ltb; apply Z.ltb_lt; lia).
    apply truediv_unit; lia. }
  destruct Hrate, Hbase; split; lra.
Qed.

Lemma ranked_entry_bounds_witness :
  support Samples.p1_entry
    = failed_P Samples.p1_entry + passed_P Samples.p1_entry /\
  1 <= support Samples.p1_entry /\
  (-1 <= increase Samples.p1_entry <= 1)%Q.
Proof.
  pose proof (ranked_entry_bounds Samples.four_rows
                (sort_desc (map (score (compute_baseline Samples.four_rows))
                              (accumulate Samples.four_rows)))
                Samples.p1_entry eq_refl
                ltac:(vm_compute; tauto)) as [H1 [H2 [_ [_ [_ [_ H3]]]]]].
  refine (conj H1 (conj H2 (H3 _))).
  repeat constructor; unfold recorded; cbn; tauto.
Defined.

End AnalyzerClaims.

Section RankingClaims.
Import Analyzer Measure.

Lemma score_names (b : Baseline) (stats : list (string * Stats)) :
  map name (map (score b) stats) = map fst stats.
Proof.
  induction stats as [|[k s] stats IH]; cbn; [reflexivity | now rewrite IH].
Qed.

(** C4.  For every non-empty record set the analyzer returns a ranking
    that is sorted by descending key (a larger [increase] first, and for
    equal [increase] a [failure_P] that is not smaller first); it names,
    once each, exactly the predicates that are true of at least one row, a
    predicate without support having no entry at all; and entries with
    equal keys stand in the order in which their predicates were first
    seen in the rows, so that the order is a function of the input
    alone. *)
Theorem ranking_sorted_stable (rows : list Row) :
  rows <> [] ->
  exists out,
    analyze_predicates rows (compute_baseline rows) = ([], Some out) /\
    StronglySorted key_ge out /\
    NoDup (map name out) /\
    (forall n, In n (map name out) <-> 1 <= support_of n rows) /\
    (forall r, In r out -> 1 <= support r) /\
    Permutation out (map (score (compute_baseline rows)) (accumulate rows)) /\
    map name (map (score (compute_baseline rows)) (accumulate rows))
      = first_seen rows /\
    (forall r0,
       filter (same_key r0) out =
       filter (same_key r0)
         (map (score (compute_baseline rows)) (accumulate rows))).
Proof.
  intros Hne; eexists; split; [apply analyze_nonempty, Hne|].
  set (b := compute_baseline rows).
  destruct (accumulate_counts rows) as [Hkeys [Hnd [Hok _]]].
  pose proof (sort_desc_perm (map (score b) (accumulate rows))) as Hperm.
  assert (Hnames : Permutation
                     (map name (sort_desc (map (score b) (accumulate rows))))
                     (map fst (accumulate rows)))
    by (rewrite <- (score_names b); now apply Permutation_map).
  split; [apply sort_desc_sorted|].
  split; [apply (Permutation_NoDup (Permutation_sym Hnames) Hnd)|].
  split.
  { intros n; rewrite <- accumulate_keys; split; intros Hin.
    - now apply (Permutation_in _ Hnames).
    - now apply (Permutation_in _ (Permutation_sym Hnames)). }
  split.
  { intros r Hin; apply (Permutation_in _ Hperm) in Hin.
    apply in_map_iff in Hin; destruct Hin as [[k s] [<- Hin]].
    rewrite Forall_forall in Hok; apply (Hok _ Hin). }
  split; [exact Hperm|].
  split; [now rewrite score_names|].
  intros r0; apply sort_desc_stable.
Qed.

(** The four example rows: P2 and P3 tie and keep the order of first
    sight, P1 follows, P7 is last, and the predicates without support
    (P4, P5, P6, P8) are absent. *)
Lemma ranking_sorted_stable_witness :
  exists out,
    analyze_predicates Samples.four_rows (compute_baseline Samples.four_rows)
      = ([], Some out) /\
    map name out =
      [ "P2_bug_triggered"; "P3_checksum_failed"; "P1_is_large_file";
        "P7_small_file" ] /\
    StronglySorted key_ge out /\
    NoDup (map name out).
Proof.
  destruct (ranking_sorted_stable Samples.four_rows ltac:(discriminate))
    as [out [Hout [Hsorted [Hnd _]]]].
  exists out; repeat split; try assumption.
  vm_compute in Hout; injection Hout as <-; reflexivity.
Defined.

(** C5, as the code has it.  For a store that exists and holds no rows the
    baseline is all zeros, [analyze_predicates] prints that there are no
    rows and returns without a ranking, and [main] prints the zero baseline
    and no ranked line, raising nothing.  For a store that does not exist
    [load_sd_data] raises [FileNotFoundError], and so does [main]. *)
Theorem empty_store_report :
  compute_baseline [] =
    {| total_runs := 0; total_failed := 0; total_passed := 0;
       baseline_failure_rate := 0 |} /\
  analyze_predicates [] (compute_baseline []) = ([No_rows], None) /\
  main (Some []) = inr Samples.no_data_report /\
  (forall r, ~ In (Ranked r) Samples.no_data_report) /\
  load_sd_data None = inl FileNotFoundError /\
  main None = inl FileNotFoundError.
Proof.
  repeat split.
  intros r Hin; cbn in Hin; intuition discriminate.
Qed.

(** C5, as stated, fails: with no store at all there are no records
    available, and the analyzer raises. *)
Lemma missing_store_raises : ~ Stated.empty_input_reported None.
Proof.
  intros Hclaim; destruct (Hclaim eq_refl) as [lines [Hmain _]].
  discriminate Hmain.
Qed.

End RankingClaims.

(** ** The recorder writes recorded rows *)

Lemma append_sd_row_recorded (store : Store) (file_name : string)
    (original_size compressed_size : Z) (compression_ratio latency_ms : Q)
    (is_large_file bug_triggered checksum_ok : bool) :
  Forall Measure.recorded (rows_of store) ->
  Forall Measure.recorded
    (rows_of (Client.append_sd_row store file_name original_size
                compressed_size compression_ratio latency_ms is_large_file
                bug_triggered checksum_ok)).
Proof.
  intros Hok; cbn [Client.append_sd_row rows_of].
  apply Forall_app; split; [exact Hok|].
  constructor; [|constructor].
  unfold Measure.recorded; cbn [failed].
  destruct checksum_ok; [left | right]; reflexivity.
Qed.

(** ** One transfer, end to end *)

Section EndToEnd.
Context `{Sha256} `{Zlib}.
Variable str_float : Q -> string.

Lemma truthy_nonempty (s : string) :
  s <> EmptyString -> truthy (Some s) = Some s.
Proof. destruct s; [congruence | reflexivity]. Qed.

(** With lawful libraries, a non-empty file that is not large is stored by
    the server as it was sent, passes the check, and is recorded as a
    passed transfer. *)
Lemma send_file_small_verifies (cfg : Server.Config) (name : string)
    (file : bytes) (elapsed_ms : Q) (g : Rng) (store : Store) :
  sha256_streams -> zlib_roundtrips ->
  file <> [] -> name <> EmptyString -> sha256_hex file <> EmptyString ->
  Z.of_nat (length file) <= Server.LARGE_FILE_THRESHOLD cfg ->
  exists c,
    Client.read_and_compress file Client.default_chunk_size = Some c /\
    Client.send_file str_float cfg name file elapsed_ms g store =
    Some
      (Some (rows_of store ++
             [ {| file_name := name;
                  original_size := Z.of_nat (length file);
                  compressed_size := Client.c_compressed_size c;
                  compression_ratio := Client.c_compression_ratio c;
                  latency_ms := Client.round3 elapsed_ms;
                  is_large_file := 0;
                  bug_triggered := 0;
                  checksum_ok := 1;
                  failed := 0 |} ]),
       {| Server.response :=
            Server.ROk name true (sha256_hex file)
              (Some (str_float (Client.c_compression_ratio c)))
              (Z.of_nat (length file)) (Client.c_compressed_size c)
              false false;
          Server.scheduled_write := Some (name, file);
          Server.rng_after := g |}).
Proof.
  intros Hsha Hz Hne Hname Hsum Hsmall.
  destruct (read_and_compress_lawful file Client.default_chunk_size
              Hsha Hz eq_refl Hne) as [c [Hc [Hd [Hck [Hos Hcs]]]]].
  exists c; split; [exact Hc|].
  unfold Client.send_file; rewrite Hc.
  assert (Hup : Server.upload_file cfg (Client.request_of str_float name c) g =
    {| Server.response :=
         Server.ROk name true (sha256_hex file)
           (Some (str_float (Client.c_compression_ratio c)))
           (Z.of_nat (length file)) (Client.c_compressed_size c) false false;
       Server.scheduled_write := Some (name, file);
       Server.rng_after := g |}).
  { rewrite (upload_file_accepted cfg _ g name (Client.checksum c) file);
      cbn [Client.request_of Server.q_filename Server.q_checksum Server.body
           Server.q_compression_ratio].
    - rewrite (corruption_block_small cfg file g Hsmall), Hck, String.eqb_refl,
        Hcs.
      replace (Z.of_nat (length file) >? Server.LARGE_FILE_THRESHOLD cfg)
        with false; [reflexivity|].
      symmetry; rewrite Z.gtb_ltb; now apply Z.ltb_ge.
    - now apply truthy_nonempty.
    - rewrite Hck; now apply truthy_nonempty.
    - exact Hd. }
  rewrite Hup; unfold Client.record_response, Client.append_sd_row.
  cbn [Server.response Client.get_checksum_ok Client.get_is_large_file
       Client.get_bug_triggered negb Z.b2z].
  now rewrite Hos.
Qed.

End EndToEnd.

(** ** Worked examples *)

Example empty_file_ratio :
  option_map Client.c_compression_ratio
    (Client.read_and_compress (H := StoredLibs.sha) (H0 := StoredLibs.zlib)
       [] 4) = Some 1%Q.
Proof. reflexivity. Qed.

Example six_bytes_in_chunks_of_four :
  Client.read_and_compress (H := StoredLibs.sha) (H0 := StoredLibs.zlib)
    Samples.six_bytes 4
  = Some {| Client.compressed := StoredLibs.magic :: Samples.six_bytes;
            Client.checksum := "616263646566";
            Client.c_original_size := 6;
            Client.c_compressed_size := 7;
            Client.c_compression_ratio := truediv 7 6;
            Client.chunk_count := 2 |}.
Proof. reflexivity. Qed.

Example corrupted_upload_fails_check :
  Server.upload_file (H := StoredLibs.sha) (H0 := StoredLibs.zlib)
    Samples.tiny_config (Samples.upload_of "a" Samples.six_bytes) Samples.rng0
  = {| Server.response :=
         Server.ROk "a" false "616200000000" (Some "1.0") 6 7 true true;
       Server.scheduled_write := Some ("a", Samples.six_zeroed);
       Server.rng_after := Samples.rng1 |}.
Proof. reflexivity. Qed.

Example shipped_threshold_and_span :
  Server.LARGE_FILE_THRESHOLD Server.config = 10485760 /\
  Server.CORRUPT_TAIL_BYTES Server.config = 1024 /\
  Server.CORRUPT_TAIL_BYTES Server.config
    < Server.LARGE_FILE_THRESHOLD Server.config.
Proof. repeat split. Qed.

Example four_rows_report :
  Analyzer.main (Some Samples.four_rows) =
  inr ([ Analyzer.Baseline_title; Analyzer.Total_runs 4;
         Analyzer.Total_failed 2; Analyzer.Total_passed 2;
         Analyzer.Failure_rate (truediv 2 4); Analyzer.Blank;
         Analyzer.Ranking_title; Analyzer.Columns ]
       ++ map Analyzer.Ranked
            (Analyzer.sort_desc
               (map
                  (Analyzer.score (Analyzer.compute_baseline Samples.four_rows))
                  (Analyzer.accumulate Samples.four_rows)))).
Proof. reflexivity. Qed.

(** * Further properties of the code *)

(** ** The upload handler *)

Section HandlerFurther.
Context `{Sha256} `{Zlib}.
Variable cfg : Server.Config.

(** X1.  The handler accepts exactly the uploads that carry a non-empty
    filename and a non-empty checksum and whose body decompresses.  The
    metadata is checked first: without it the reason is the fixed text
    whatever the body holds; otherwise a body that does not decompress is
    reported with the text of the library's exception.  A write is
    scheduled exactly for the accepted uploads, under the filename sent. *)
Theorem upload_accepts_exactly_valid (req : Server.Request) (g : Rng) :
  (Server.status_is_error (Server.response (Server.upload_file cfg req g))
     = false <->
   exists fname csum data,
     truthy (Server.q_filename req) = Some fname /\
     truthy (Server.q_checksum req) = Some csum /\
     z_decompress (Server.body req) = inr data) /\
  (truthy (Server.q_filename req) = None \/
   truthy (Server.q_checksum req) = None ->
   Server.response (Server.upload_file cfg req g)
     = Server.RError "missing filename or checksum") /\
  (forall fname csum e,
     truthy (Server.q_filename req) = Some fname ->
     truthy (Server.q_checksum req) = Some csum ->
     z_decompress (Server.body req) = inl e ->
     Server.response (Server.upload_file cfg req g)
       = Server.RError (String.append "decompression_failed: " e)) /\
  (Server.status_is_error (Server.response (Server.upload_file cfg req g))
     = true <->
   Server.scheduled_write (Server.upload_file cfg req g) = None) /\
  (forall dest written,
     Server.scheduled_write (Server.upload_file cfg req g)
       = Some (dest, written) ->
     truthy (Server.q_filename req) = Some dest).
Proof.
  unfold Server.upload_file.
  destruct (truthy (Server.q_filename req)) as [fname|] eqn:Ef;
    [destruct (truthy (Server.q_checksum req)) as [csum|] eqn:Ec;
     [destruct (z_decompress (Server.body req)) as [e|data] eqn:Ed|]|].
  - cbn; repeat split; try discriminate; try tauto.
    + intros [? [? [? [_ [_ ?]]]]]; discriminate.
    + intros [?|?]; discriminate.
    + intros ? ? ? [= <-] [= <-] [= <-]; reflexivity.
  - destruct (Server.corruption_block cfg data g) as [[t d1] g1]; cbn.
    repeat split; try discriminate; try tauto.
    + intros _; now exists fname, csum, data.
    + intros [?|?]; discriminate.
    + intros ? ? [= <- _]; reflexivity.
  - cbn; repeat split; try discriminate; try tauto.
    intros [? [? [? [_ [? _]]]]]; discriminate.
  - cbn; repeat split; try discriminate; try tauto.
    intros [? [? [? [? _]]]]; discriminate.
Qed.

(** X2.  The random generator is consulted once for an accepted upload
    whose payload is large while the bug is enabled, and not at all
    otherwise (a rejected upload, a payload within the threshold, the bug
    disabled).  The upload is reported as corrupted exactly when that one
    draw is below the probability. *)
Theorem one_draw_per_eligible_upload (req : Server.Request) (g : Rng)
    (fname csum : string) (data : bytes) :
  (Server.status_is_error (Server.response (Server.upload_file cfg req g))
     = true ->
   Server.rng_after (Server.upload_file cfg req g) = g) /\
  (truthy (Server.q_filename req) = Some fname ->
   truthy (Server.q_checksum req) = Some csum ->
   z_decompress (Server.body req) = inr data ->
   Server.rng_after (Server.upload_file cfg req g) =
     (if Server.BUG_ENABLED cfg
         && (Z.of_nat (length data) >? Server.LARGE_FILE_THRESHOLD cfg)
      then snd (random g) else g) /\
   exists ok sc cr os cs lf bt,
     Server.response (Server.upload_file cfg req g)
       = Server.ROk fname ok sc cr os cs lf bt /\
     lf = (Z.of_nat (length data) >? Server.LARGE_FILE_THRESHOLD cfg) /\
     bt = Server.BUG_ENABLED cfg && lf
          && Qltb (fst (random g)) (Server.BUG_PROBABILITY cfg)).
Proof.
  split.
  - unfold Server.upload_file.
    destruct (truthy (Server.q_filename req));
      [destruct (truthy (Server.q_checksum req));
       [destruct (z_decompress (Server.body req)) as [e|payload]|]|];
      try reflexivity.
    destruct (Server.corruption_block cfg payload g) as [[t d1] g1];
      discriminate.
  - intros Hf Hc Hd.
    rewrite (upload_file_accepted cfg req g fname csum data Hf Hc Hd).
    unfold Server.corruption_block.
    destruct (Server.BUG_ENABLED cfg
              && (Z.of_nat (length data) >? Server.LARGE_FILE_THRESHOLD cfg))
      eqn:E.
    + cbn [random fst snd].
      destruct (Qltb (draws g (cursor g)) (Server.BUG_PROBABILITY cfg));
        [destruct (Z.of_nat (length data) >=? Server.CORRUPT_TAIL_BYTES cfg)|];
        (split; [reflexivity|]); repeat eexists; cbn [andb];
        apply andb_true_iff in E; destruct E as [-> ->]; reflexivity.
    + split; [reflexivity|]; repeat eexists.
      apply andb_false_iff in E; destruct E as [-> | ->]; cbn;
        [reflexivity | now rewrite andb_false_r].
Qed.

End HandlerFurther.

Lemma corruption_block_length (cfg : Server.Config) (data : bytes) (g : Rng)
    (t : bool) (d1 : bytes) (g1 : Rng) :
  0 < Server.CORRUPT_TAIL_BYTES cfg ->
  Server.corruption_block cfg data g = (t, d1, g1) ->
  length d1 = length data.
Proof.
  intros Hpos Hb.
  destruct (corruption_block_cases cfg data g _ _ _ Hb)
    as [[_ ->] | [[_ [Hle ->]] | [_ [_ ->]]]]; try reflexivity.
  rewrite (assign_tail_zeros data _ Hpos Hle), length_app, length_firstn,
    repeat_length.
  lia.
Qed.

(** X3.  With a positive span the corruption never changes the size of
    the payload: for every accepted upload, corrupted or not, the bytes
    scheduled for writing have exactly the [original_size] the response
    reports, and the reported digest is the digest of those bytes. *)
Theorem written_size_is_reported_size `{Sha256} `{Zlib}
    (cfg : Server.Config) (req : Server.Request) (g : Rng)
    (dest : string) (written : bytes) :
  0 < Server.CORRUPT_TAIL_BYTES cfg ->
  Server.scheduled_write (Server.upload_file cfg req g)
    = Some (dest, written) ->
  exists ok cr cs lf bt,
    Server.response (Server.upload_file cfg req g)
      = Server.ROk dest ok (sha256_hex written) cr
          (Z.of_nat (length written)) cs lf bt.
Proof.
  intros Hpos; unfold Server.upload_file.
  destruct (truthy (Server.q_filename req)) as [fname|];
    [destruct (truthy (Server.q_checksum req)) as [csum|];
     [destruct (z_decompress (Server.body req)) as [e|data]|]|];
    try discriminate.
  destruct (Server.corruption_block cfg data g) as [[t d1] g1] eqn:Hb.
  cbn; intros [= <- <-].
  rewrite <- (corruption_block_length cfg data g t d1 g1 Hpos Hb).
  repeat eexists.
Qed.

Lemma written_size_is_reported_size_witness :
  exists ok cr cs lf bt,
    Server.response
      (Server.upload_file (H := StoredLibs.sha) (H0 := StoredLibs.zlib)
         Samples.tiny_config (Samples.upload_of "a" Samples.six_bytes)
         Samples.rng0)
    = Server.ROk "a" ok (sha256_hex (H := StoredLibs.sha) Samples.six_zeroed)
        cr (Z.of_nat (length Samples.six_zeroed)) cs lf bt.
Proof.
  exact (written_size_is_reported_size (H := StoredLibs.sha)
           (H0 := StoredLibs.zlib) Samples.tiny_config
           (Samples.upload_of "a" Samples.six_bytes) Samples.rng0
           "a" Samples.six_zeroed eq_refl eq_refl).
Defined.

(** A triggered corruption of a payload that has at least the span (a
    positive number of bytes) leaves the payload as it was exactly when its
    last bytes were all zero already. *)
Lemma corruption_noop_iff_zero_tail (cfg : Server.Config)
    (data : bytes) (g : Rng) (data1 : bytes) (g1 : Rng) :
  0 < Server.CORRUPT_TAIL_BYTES cfg ->
  Server.CORRUPT_TAIL_BYTES cfg <= Z.of_nat (length data) ->
  Server.corruption_block cfg data g = (true, data1, g1) ->
  (data1 = data <->
   skipn (length data - Z.to_nat (Server.CORRUPT_TAIL_BYTES cfg)) data
   = repeat Byte.x00 (Z.to_nat (Server.CORRUPT_TAIL_BYTES cfg))).
Proof.
  intros Hpos Hle Hb.
  destruct (corruption_block_cases cfg data g _ _ _ Hb)
    as [[Ht _] | [[_ [_ ->]] | [_ [Hlt _]]]]; [discriminate| |lia].
  rewrite (assign_tail_zeros data _ Hpos Hle).
  set (k := (length data - Z.to_nat (Server.CORRUPT_TAIL_BYTES cfg))%nat).
  split.
  - intros E; rewrite <- (firstn_skipn k data) in E at 2.
    apply app_inv_head in E; now symmetry.
  - intros E; rewrite <- E; apply firstn_skipn.
Qed.

(** X4.  Take an upload that carries the digest of its own payload, a
    payload at least as long as the (positive) span, on which the
    corruption triggers.  The payload is left as it was exactly when its
    last bytes were all zero already, and in that case the check passes
    although [bug_triggered] is reported.  Provided the digest does not
    collide on the payload and its corrupted version, this is the only
    case in which the check passes. *)
Theorem corrupted_upload_passes_iff_zero_tail `{Sha256} `{Zlib}
    (cfg : Server.Config) (req : Server.Request) (g : Rng) (fname : string)
    (data data1 : bytes) (g1 : Rng) :
  0 < Server.CORRUPT_TAIL_BYTES cfg ->
  Server.CORRUPT_TAIL_BYTES cfg <= Z.of_nat (length data) ->
  Server.corruption_block cfg data g = (true, data1, g1) ->
  truthy (Server.q_filename req) = Some fname ->
  truthy (Server.q_checksum req) = Some (sha256_hex data) ->
  z_decompress (Server.body req) = inr data ->
  (data1 = data <->
   skipn (length data - Z.to_nat (Server.CORRUPT_TAIL_BYTES cfg)) data
   = repeat Byte.x00 (Z.to_nat (Server.CORRUPT_TAIL_BYTES cfg))) /\
  exists ok,
    Server.response (Server.upload_file cfg req g) =
      Server.ROk fname ok (sha256_hex data1) (Server.q_compression_ratio req)
        (Z.of_nat (length data)) (Z.of_nat (length (Server.body req)))
        (Z.of_nat (length data) >? Server.LARGE_FILE_THRESHOLD cfg) true /\
    (skipn (length data - Z.to_nat (Server.CORRUPT_TAIL_BYTES cfg)) data
     = repeat Byte.x00 (Z.to_nat (Server.CORRUPT_TAIL_BYTES cfg)) ->
     ok = true) /\
    ((sha256_hex data1 = sha256_hex data -> data1 = data) ->
     (ok = true <->
      skipn (length data - Z.to_nat (Server.CORRUPT_TAIL_BYTES cfg)) data
      = repeat Byte.x00 (Z.to_nat (Server.CORRUPT_TAIL_BYTES cfg)))).
Proof.
  intros Hpos Hle Hb Hf Hc Hd.
  pose proof (corruption_noop_iff_zero_tail cfg data g data1 g1 Hpos Hle Hb)
    as Hiff.
  split; [exact Hiff|].
  exists (String.eqb (sha256_hex data1) (sha256_hex data)).
  rewrite (upload_file_accepted cfg req g fname (sha256_hex data) data
             Hf Hc Hd), Hb.
  split; [reflexivity|].
  split.
  - intros Htail; apply Hiff in Htail; rewrite Htail.
    apply String.eqb_refl.
  - intros Hfree; rewrite String.eqb_eq; split.
    + intros E; apply Hiff, Hfree, E.
    + intros Htail; apply Hiff in Htail; now rewrite Htail.
Qed.

(** Six bytes whose tail is not zero: the check fails.  The same bytes
    with the tail already zero: flagged, and the check passes. *)
Lemma corrupted_upload_passes_iff_zero_tail_witness :
  (exists ok,
     Server.response
       (Server.upload_file (H := StoredLibs.sha) (H0 := StoredLibs.zlib)
          Samples.tiny_config (Samples.upload_of "a" Samples.six_bytes)
          Samples.rng0)
     = Server.ROk "a" ok "616200000000" (Some "1.0") 6 7 true true /\
     (ok = true <-> skipn 2 Samples.six_bytes = repeat Byte.x00 4)) /\
  (exists ok,
     Server.response
       (Server.upload_file (H := StoredLibs.sha) (H0 := StoredLibs.zlib)
          Samples.tiny_config (Samples.upload_of "a" Samples.six_zeroed)
          Samples.rng0)
     = Server.ROk "a" ok "616200000000" (Some "1.0") 6 7 true true /\
     ok = true).
Proof.
  split.
  - destruct (corrupted_upload_passes_iff_zero_tail (H := StoredLibs.sha)
                (H0 := StoredLibs.zlib) Samples.tiny_config
                (Samples.upload_of "a" Samples.six_bytes) Samples.rng0 "a"
                Samples.six_bytes Samples.six_zeroed Samples.rng1
                eq_refl ltac:(vm_compute; discriminate) eq_refl
                eq_refl eq_refl eq_refl) as [_ [ok [Hr [_ Honly]]]].
    exists ok; split; [exact Hr|].
    apply Honly; intros E; vm_compute in E; discriminate E.
  - destruct (corrupted_upload_passes_iff_zero_tail (H := StoredLibs.sha)
                (H0 := StoredLibs.zlib) Samples.tiny_config
                (Samples.upload_of "a" Samples.six_zeroed) Samples.rng0 "a"
                Samples.six_zeroed Samples.six_zeroed Samples.rng1
                eq_refl ltac:(vm_compute; discriminate) eq_refl
                eq_refl eq_refl eq_refl) as [_ [ok [Hr [Hzero _]]]].
    exists ok; split; [exact Hr | exact (Hzero eq_refl)].
Defined.

Lemma one_draw_per_eligible_upload_witness :
  Server.rng_after
    (Server.upload_file (H := StoredLibs.sha) (H0 := StoredLibs.zlib)
       Samples.tiny_config (Samples.upload_of "a" Samples.six_bytes)
       Samples.rng0) = Samples.rng1 /\
  Server.rng_after
    (Server.upload_file (H := StoredLibs.sha) (H0 := StoredLibs.zlib)
       Samples.tiny_config Samples.upload_garbage Samples.rng0)
  = Samples.rng0.
Proof.
  split.
  - exact (proj1 (proj2 (one_draw_per_eligible_upload (H := StoredLibs.sha)
                           (H0 := StoredLibs.zlib) Samples.tiny_config
                           (Samples.upload_of "a" Samples.six_bytes)
                           Samples.rng0 "a" "616263646566" Samples.six_bytes)
                    eq_refl eq_refl eq_refl)).
  - exact (proj1 (one_draw_per_eligible_upload (H := StoredLibs.sha)
                    (H0 := StoredLibs.zlib) Samples.tiny_config
                    Samples.upload_garbage Samples.rng0
                    "a" "00" []) eq_refl).
Defined.

(** ** The codec: how the file is cut *)

Lemma length_take {A} (n : N) (l : list A) :
  length (Client.take n l) = Nat.min (N.to_nat n) (length l).
Proof.
  revert n; induction l as [|x l IH]; intros n; cbn; [lia|].
  destruct (n =? 0)%N eqn:E.
  - apply N.eqb_eq in E; subst n; reflexivity.
  - apply N.eqb_neq in E; cbn [length]; rewrite IH; lia.
Qed.

Lemma well_cut_count (n : nat) (chunks : list bytes) :
  (0 < n)%nat -> Shape.well_cut n chunks ->
  Z.of_nat (length chunks)
  = (Z.of_nat (length (concat chunks)) + Z.of_nat n - 1) / Z.of_nat n.
Proof.
  intros Hn; induction chunks as [|c rest IH]; intros Hcut.
  - cbn; symmetry; apply Z.div_small; lia.
  - destruct rest as [|c2 rest].
    + cbn [Shape.well_cut] in Hcut; cbn [concat length]; rewrite app_nil_r.
      change (Z.of_nat 1) with 1.
      apply (Z.div_unique_pos _ _ 1 (Z.of_nat (length c) - 1)); lia.
    + destruct Hcut as [Hc Hrest]; specialize (IH Hrest).
      change (concat (c :: c2 :: rest)) with (c ++ concat (c2 :: rest)).
      rewrite length_app, Hc.
      change (length (c :: c2 :: rest)) with (S (length (c2 :: rest))).
      rewrite Nat2Z.inj_succ, IH, Nat2Z.inj_add.
      replace (Z.of_nat n + Z.of_nat (length (concat (c2 :: rest)))
               + Z.of_nat n - 1)
        with (1 * Z.of_nat n
              + (Z.of_nat (length (concat (c2 :: rest))) + Z.of_nat n - 1))
        by lia.
      rewrite Z.div_add_l by lia; lia.
Qed.

Section CutFacts.
Context `{Sha256} `{Zlib}.

(** The loop cuts the file into pieces of [chunk_size] bytes. *)
Lemma read_loop_cut (chunk_size : N) (fuel : nat) :
  (0 < chunk_size)%N ->
  forall (f : bytes) (st : Client.LoopState),
  (length f < fuel)%nat ->
  exists chunks,
    concat chunks = f /\
    Shape.well_cut (N.to_nat chunk_size) chunks /\
    (f = [] -> chunks = []) /\
    Client.read_loop fuel chunk_size f st
      = Some (Client.after_chunks st chunks).
Proof.
  intros Hn; induction fuel as [|fuel IH]; intros f st Hlt; [lia|].
  cbn [Client.read_loop Client.read].
  destruct (Client.take chunk_size f) as [|b chunk] eqn:Et.
  - exists []; apply (take_nil_inv _ _ Hn) in Et; subst f.
    split; [reflexivity|]. split; [exact I|]. split; [reflexivity|].
    destruct st; unfold Client.after_chunks; cbn.
    now rewrite !Z.add_0_r.
  - assert (Hshort : (length (Client.drop chunk_size f) < length f)%nat)
      by (apply drop_shorter; rewrite Et; discriminate).
    pose proof (length_take chunk_size f) as Hlen; rewrite Et in Hlen.
    pose proof (f_equal (@length _) (take_drop chunk_size f)) as Hsum.
    rewrite length_app, Et in Hsum.
    destruct (z_compress (Client.compressor st) (b :: chunk))
      as [z1 part] eqn:Ez.
    match goal with
    | |- context [Client.read_loop fuel chunk_size _ ?s] =>
        destruct (IH (Client.drop chunk_size f) s ltac:(lia))
          as [chunks [Hc [Hcut [Hnil Hrun]]]]; rewrite Hrun
    end.
    exists ((b :: chunk) :: chunks).
    split; [cbn [concat]; rewrite Hc, <- Et; apply take_drop|].
    split.
    { destruct chunks as [|c2 rest]; cbn [Shape.well_cut].
      - lia.
      - split; [|exact Hcut].
        destruct (Client.drop chunk_size f) as [|d ds] eqn:Ed;
          [now specialize (Hnil eq_refl)|].
        cbn [length] in *; lia. }
    split; [intros ->; destruct chunk_size; discriminate|].
    f_equal; unfold Client.after_chunks; cbn -[Z.of_nat Z.add].
    rewrite Ez.
    destruct (z_feed z1 chunks) as [parts z2]; cbn -[Z.of_nat Z.add].
    f_equal.
    + rewrite length_app. cbn [length]. lia.
    + lia.
Qed.

(** X5.  For a positive chunk size [read_and_compress] cuts the file, in
    order and without loss, into pieces of exactly [chunk_size] bytes
    followed by one last piece of at most that size; the body it returns is
    the library's stream for these pieces, the digest is the one obtained by
    updating the hash with each piece in turn, and [chunk_count] is the
    number of pieces. *)
Theorem read_and_compress_cuts_file (file : bytes) (chunk_size : N) :
  (0 < chunk_size)%N ->
  exists c chunks,
    Client.read_and_compress file chunk_size = Some c /\
    concat chunks = file /\
    Shape.well_cut (N.to_nat chunk_size) chunks /\
    Client.compressed c = z_stream chunks /\
    Client.checksum c
      = sha256_hexdigest (fold_left sha256_update chunks sha256_new) /\
    Client.chunk_count c = Z.of_nat (length chunks).
Proof.
  intros Hn; unfold Client.read_and_compress.
  destruct (read_loop_cut chunk_size (S (length file)) Hn file
              Client.loop_init ltac:(lia)) as [chunks [Hc [Hcut [_ Hrun]]]].
  rewrite Hrun; cbn [option_map].
  eexists; exists chunks; split; [reflexivity|].
  split; [exact Hc|]. split; [exact Hcut|].
  unfold Client.finish, Client.after_chunks.
  cbn [Client.compressed Client.checksum Client.chunk_count Client.sha
       Client.compressor Client.compressed_parts Client.l_chunk_count
       Client.loop_init].
  split; [|split; reflexivity].
  rewrite concat_append_nonempty, concat_fold_append_nonempty.
  cbn [concat app]; unfold z_stream.
  now destruct (z_feed compressobj chunks) as [parts z].
Qed.

(** X6.  For a positive chunk size the number of chunks reported is the
    length of the file divided by the chunk size, rounded up; an empty file
    has no chunk. *)
Theorem chunk_count_is_ceiling (file : bytes) (chunk_size : N) :
  (0 < chunk_size)%N ->
  exists c,
    Client.read_and_compress file chunk_size = Some c /\
    Client.chunk_count c
    = (Z.of_nat (length file) + Z.of_N chunk_size - 1) / Z.of_N chunk_size.
Proof.
  intros Hn; unfold Client.read_and_compress.
  destruct (read_loop_cut chunk_size (S (length file)) Hn file
              Client.loop_init ltac:(lia)) as [chunks [Hc [Hcut [_ Hrun]]]].
  rewrite Hrun; cbn [option_map].
  eexists; split; [reflexivity|].
  unfold Client.finish, Client.after_chunks.
  cbn [Client.chunk_count Client.l_chunk_count Client.loop_init].
  rewrite Z.add_0_l, (well_cut_count (N.to_nat chunk_size) chunks) by
    (try exact Hcut; lia).
  now rewrite Hc, N_nat_Z.
Qed.

(** X7.  With a chunk size of 0 the first read returns nothing and the
    loop ends at once: whatever the file holds, no byte of it is hashed or
    compressed, and the result describes an empty input (size 0, no chunk,
    ratio 1, the digest of nothing, a body made of the flush alone). *)
Theorem zero_chunk_size_reads_nothing (file : bytes) :
  Client.read_and_compress file 0 =
  Some {| Client.compressed := z_flush compressobj;
          Client.checksum := sha256_hexdigest sha256_new;
          Client.c_original_size := 0;
          Client.c_compressed_size := Z.of_nat (length (z_flush compressobj));
          Client.c_compression_ratio := 1;
          Client.chunk_count := 0 |}.
Proof.
  unfold Client.read_and_compress; rewrite read_loop_zero.
  cbn [option_map]; unfold Client.finish.
  cbn [Client.loop_init Client.compressor Client.compressed_parts Client.sha
       Client.l_original_size Client.l_chunk_count].
  rewrite concat_append_nonempty; reflexivity.
Qed.

End CutFacts.

Lemma read_and_compress_cuts_file_witness :
  exists c chunks,
    Client.read_and_compress (H := StoredLibs.sha) (H0 := StoredLibs.zlib)
      Samples.six_bytes 4 = Some c /\
    concat chunks = Samples.six_bytes /\
    Shape.well_cut 4 chunks /\
    Client.compressed c = z_stream (H := StoredLibs.zlib) chunks /\
    Client.checksum c
      = sha256_hexdigest (Sha256 := StoredLibs.sha)
          (fold_left (sha256_update (Sha256 := StoredLibs.sha)) chunks
             (sha256_new (Sha256 := StoredLibs.sha))) /\
    Client.chunk_count c = Z.of_nat (length chunks).
Proof.
  exact (read_and_compress_cuts_file (H := StoredLibs.sha)
           (H0 := StoredLibs.zlib) Samples.six_bytes 4 eq_refl).
Defined.

Lemma chunk_count_is_ceiling_witness :
  exists c,
    Client.read_and_compress (H := StoredLibs.sha) (H0 := StoredLibs.zlib)
      Samples.six_bytes 4 = Some c /\
    Client.chunk_count c = 2.
Proof.
  exact (chunk_count_is_ceiling (H := StoredLibs.sha) (H0 := StoredLibs.zlib)
           Samples.six_bytes 4 eq_refl).
Defined.

(** ** One transfer, end to end: the row recorded *)

Lemma corruption_block_trigger_large (cfg : Server.Config) (data : bytes)
    (g : Rng) (d1 : bytes) (g1 : Rng) :
  Server.corruption_block cfg data g = (true, d1, g1) ->
  (Z.of_nat (length data) >? Server.LARGE_FILE_THRESHOLD cfg) = true.
Proof.
  unfold Server.corruption_block.
  destruct (Z.of_nat (length data) >? Server.LARGE_FILE_THRESHOLD cfg);
    [reflexivity|].
  rewrite andb_false_r; discriminate.
Qed.

Lemma corruption_block_untriggered (cfg : Server.Config) (data : bytes)
    (g : Rng) (d1 : bytes) (g1 : Rng) :
  Server.corruption_block cfg data g = (false, d1, g1) -> d1 = data.
Proof.
  intros Hb.
  destruct (corruption_block_cases cfg data g _ _ _ Hb)
    as [[_ ->] | [[Ht _] | [Ht _]]]; [reflexivity | discriminate..].
Qed.

Section TransferFacts.
Context `{Sha256} `{Zlib}.
Variable str_float : Q -> string.

Lemma read_and_compress_sizes (file : bytes) (chunk_size : N) :
  (0 < chunk_size)%N ->
  exists c,
    Client.read_and_compress file chunk_size = Some c /\
    Client.c_original_size c = Z.of_nat (length file) /\
    Client.c_compressed_size c = Z.of_nat (length (Client.compressed c)).
Proof.
  intros Hn; unfold Client.read_and_compress.
  destruct (read_loop_cut chunk_size (S (length file)) Hn file
              Client.loop_init ltac:(lia)) as [chunks [Hc [_ [_ Hrun]]]].
  rewrite Hrun; cbn [option_map].
  eexists; split; [reflexivity|].
  unfold Client.finish, Client.after_chunks.
  cbn [Client.compressed Client.c_original_size Client.c_compressed_size
       Client.l_original_size Client.loop_init].
  now rewrite Hc.
Qed.

Lemma accepted_flags (cfg : Server.Config) (req : Server.Request) (g : Rng)
    (fname : string) (ok : bool) (sc : string) (cr : option string)
    (os cs : Z) (lf bt : bool) :
  Server.response (Server.upload_file cfg req g)
    = Server.ROk fname ok sc cr os cs lf bt ->
  bt = true -> lf = true.
Proof.
  unfold Server.upload_file.
  destruct (truthy (Server.q_filename req));
    [destruct (truthy (Server.q_checksum req));
     [destruct (z_decompress (Server.body req)) as [e|data]|]|];
    try discriminate.
  destruct (Server.corruption_block cfg data g) as [[t d1] g1] eqn:Hb.
  cbn; intros [= _ _ _ _ _ _ <- <-] ->.
  exact (corruption_block_trigger_large cfg data g d1 g1 Hb).
Qed.

(** The row [send_file] appends, whatever the libraries and the server do. *)
Lemma send_file_row (cfg : Server.Config) (name : string)
    (file : bytes) (elapsed_ms : Q) (g : Rng) (store : Store) :
  exists c row,
    Client.read_and_compress file Client.default_chunk_size = Some c /\
    Client.send_file str_float cfg name file elapsed_ms g store =
      Some (Some (rows_of store ++ [row]),
            Server.upload_file cfg (Client.request_of str_float name c) g) /\
    file_name row = name /\
    original_size row = Z.of_nat (length file) /\
    compressed_size row = Z.of_nat (length (Client.compressed c)) /\
    latency_ms row = Client.round3 elapsed_ms /\
    (is_large_file row = 0 \/ is_large_file row = 1) /\
    (bug_triggered row = 0 \/ bug_triggered row = 1) /\
    (checksum_ok row = 0 \/ checksum_ok row = 1) /\
    failed row = 1 - checksum_ok row /\
    (bug_triggered row = 1 -> is_large_file row = 1).
Proof.
  destruct (read_and_compress_sizes file Client.default_chunk_size eq_refl)
    as [c [Hc [Hos Hcs]]].
  exists c; eexists; split; [exact Hc|].
  unfold Client.send_file; rewrite Hc.
  unfold Client.record_response, Client.append_sd_row.
  split; [reflexivity|].
  cbn [file_name original_size compressed_size latency_ms is_large_file
       bug_triggered checksum_ok failed].
  split; [reflexivity|]. split; [exact Hos|]. split; [exact Hcs|].
  split; [reflexivity|].
  destruct (Server.response
              (Server.upload_file cfg (Client.request_of str_float name c) g))
    as [reason | fname ok sc cr os cs lf bt] eqn:Hr;
    cbn [Client.get_checksum_ok Client.get_is_large_file
         Client.get_bug_triggered].
  - cbn; repeat split; try tauto; discriminate.
  - pose proof (accepted_flags cfg _ g _ _ _ _ _ _ _ _ Hr) as Hflags.
    destruct lf, bt, ok; cbn; repeat split; try tauto; try discriminate.
    all: intros _; specialize (Hflags eq_refl); discriminate.
Qed.

(** X8.  Whatever the libraries and the server do, [send_file] returns
    and leaves the store with exactly one more row at its end, every earlier
    row where it was.  The row carries the file's name, the number of bytes
    read and the number of bytes sent, all three flag columns are 0 or 1,
    [failed] is the complement of [checksum_ok], and a row flagged
    [bug_triggered] is also flagged [is_large_file]. *)
Theorem send_file_appends_one_row (cfg : Server.Config) (name : string)
    (file : bytes) (elapsed_ms : Q) (g : Rng) (store : Store) :
  exists c row,
    Client.read_and_compress file Client.default_chunk_size = Some c /\
    Client.send_file str_float cfg name file elapsed_ms g store =
      Some (Some (rows_of store ++ [row]),
            Server.upload_file cfg (Client.request_of str_float name c) g) /\
    file_name row = name /\
    original_size row = Z.of_nat (length file) /\
    compressed_size row = Z.of_nat (length (Client.compressed c)) /\
    latency_ms row = Client.round3 elapsed_ms /\
    (is_large_file row = 0 \/ is_large_file row = 1) /\
    (bug_triggered row = 0 \/ bug_triggered row = 1) /\
    (checksum_ok row = 0 \/ checksum_ok row = 1) /\
    failed row = 1 - checksum_ok row /\
    (bug_triggered row = 1 -> is_large_file row = 1).
Proof. apply send_file_row. Qed.

(** X9.  With lawful libraries, a non-empty file sent under a non-empty
    name (its digest being a non-empty text) is accepted; the row recorded
    says the file is large exactly when it exceeds the threshold, says the
    bug triggered exactly when the corruption block did, and says the check
    passed exactly when the digest of the bytes leaving the block equals the
    digest of the file.  Hence a transfer is recorded as failed only if the
    bug triggered on a large file, and when the bug did not trigger the
    server writes the file as it was sent. *)
Theorem send_file_fails_only_when_corrupted (cfg : Server.Config)
    (name : string) (file : bytes) (elapsed_ms : Q) (g : Rng)
    (store : Store) :
  sha256_streams -> zlib_roundtrips ->
  file <> [] -> name <> EmptyString -> sha256_hex file <> EmptyString ->
  exists row out t data1 g1,
    Server.corruption_block cfg file g = (t, data1, g1) /\
    Client.send_file str_float cfg name file elapsed_ms g store
      = Some (Some (rows_of store ++ [row]), out) /\
    Server.scheduled_write out = Some (name, data1) /\
    Server.rng_after out = g1 /\
    is_large_file row =
      Z.b2z (Z.of_nat (length file) >? Server.LARGE_FILE_THRESHOLD cfg) /\
    bug_triggered row = Z.b2z t /\
    checksum_ok row
      = Z.b2z (String.eqb (sha256_hex data1) (sha256_hex file)) /\
    (failed row = 1 -> bug_triggered row = 1 /\ is_large_file row = 1) /\
    (bug_triggered row = 0 -> data1 = file /\ failed row = 0).
Proof.
  intros Hsha Hz Hne Hname Hsum.
  destruct (read_and_compress_lawful file Client.default_chunk_size
              Hsha Hz eq_refl Hne) as [c [Hc [Hd [Hck [Hos Hcs]]]]].
  destruct (Server.corruption_block cfg file g) as [[t data1] g1] eqn:Hb.
  eexists; eexists; exists t, data1, g1.
  split; [reflexivity|].
  unfold Client.send_file; rewrite Hc.
  rewrite (upload_file_accepted cfg _ g name (Client.checksum c) file);
    cbn [Client.request_of Server.q_filename Server.q_checksum Server.body
         Server.q_compression_ratio];
    [| now apply truthy_nonempty
     | rewrite Hck; now apply truthy_nonempty
     | exact Hd ].
  rewrite Hb, Hck.
  unfold Client.record_response, Client.append_sd_row.
  cbn [Server.response Server.scheduled_write Server.rng_after
       Client.get_checksum_ok Client.get_is_large_file
       Client.get_bug_triggered].
  split; [reflexivity|].
  cbn [is_large_file bug_triggered checksum_ok failed].
  repeat (split; [reflexivity|]).
  destruct t.
  - pose proof (corruption_block_trigger_large cfg file g data1 g1 Hb) as ->.
    split; [intros _; split; reflexivity | discriminate].
  - pose proof (corruption_block_untriggered cfg file g data1 g1 Hb) as ->.
    rewrite String.eqb_refl; cbn.
    split; [discriminate | intros _; split; reflexivity].
Qed.

End TransferFacts.

(** Six bytes under the test configuration: the bug triggers and the
    transfer is recorded as failed, large and corrupted. *)
Lemma send_file_fails_only_when_corrupted_witness :
  exists row out t data1 g1,
    Server.corruption_block Samples.tiny_config Samples.six_bytes Samples.rng0
      = (t, data1, g1) /\
    Client.send_file (H := StoredLibs.sha) (H0 := StoredLibs.zlib)
      StoredLibs.str_float Samples.tiny_config "a" Samples.six_bytes 12
      Samples.rng0 None = Some (Some (rows_of None ++ [row]), out) /\
    Server.scheduled_write out = Some ("a", data1) /\
    Server.rng_after out = g1 /\
    is_large_file row = Z.b2z (6 >? 2) /\
    bug_triggered row = Z.b2z t /\
    checksum_ok row
      = Z.b2z (String.eqb (sha256_hex (H := StoredLibs.sha) data1)
                 (sha256_hex (H := StoredLibs.sha) Samples.six_bytes)) /\
    (failed row = 1 -> bug_triggered row = 1 /\ is_large_file row = 1) /\
    (bug_triggered row = 0 -> data1 = Samples.six_bytes /\ failed row = 0).
Proof.
  exact (send_file_fails_only_when_corrupted (H := StoredLibs.sha)
           (H0 := StoredLibs.zlib) StoredLibs.str_float Samples.tiny_config
           "a" Samples.six_bytes 12 Samples.rng0 None
           stored_sha256_streams stored_zlib_roundtrips
           ltac:(discriminate) ltac:(discriminate)
           ltac:(vm_compute; discriminate)).
Defined.

(** ** The analyzer: totals and bounds *)

Section Bounds.
Import Analyzer Measure.

Lemma count_nonneg (p : Row -> bool) (rows : list Row) :
  0 <= count p rows <= Z.of_nat (length rows).
Proof.
  unfold count; pose proof (filter_length_le p rows); lia.
Qed.

Lemma count_le (p q : Row -> bool) (rows : list Row) :
  (forall r, p r = true -> q r = true) -> count p rows <= count q rows.
Proof.
  intros Himp; induction rows as [|row rows IH]; [unfold count; cbn; lia|].
  rewrite !count_cons.
  destruct (p row) eqn:Ep; [rewrite (Himp row Ep); lia|].
  destruct (q row); lia.
Qed.

Lemma count_ext (p q : Row -> bool) (rows : list Row) :
  Forall (fun r => p r = q r) rows -> count p rows = count q rows.
Proof.
  induction 1 as [|row rows E _ IH]; [reflexivity|].
  now rewrite !count_cons, E, IH.
Qed.

Lemma count_complement (p : Row -> bool) (rows : list Row) :
  count p rows + count (fun r => negb (p r)) rows = Z.of_nat (length rows).
Proof.
  induction rows as [|row rows IH]; [reflexivity|].
  rewrite !count_cons; cbn [length]; rewrite Nat2Z.inj_succ.
  destruct (p row); cbn [negb]; lia.
Qed.

(** X10.  [total_failed] and [total_passed] always add up to
    [total_runs].  On recorded rows (the [failed] column 0 or 1)
    [total_failed] is the number of failed rows, [total_passed] the number
    of the others, neither is negative, and the baseline failure rate lies
    between 0 and 1. *)
Theorem baseline_totals (rows : list Row) :
  total_failed (compute_baseline rows) + total_passed (compute_baseline rows)
    = total_runs (compute_baseline rows) /\
  0 <= total_runs (compute_baseline rows) /\
  (Forall recorded rows ->
   total_failed (compute_baseline rows)
     = count (fun r => py_bool (failed r)) rows /\
   total_passed (compute_baseline rows)
     = count (fun r => negb (py_bool (failed r))) rows /\
   0 <= total_failed (compute_baseline rows)
     <= total_runs (compute_baseline rows) /\
   0 <= total_passed (compute_baseline rows) /\
   (0 <= baseline_failure_rate (compute_baseline rows) <= 1)%Q).
Proof.
  cbn [compute_baseline total_failed total_passed total_runs
       baseline_failure_rate].
  split; [lia|]. split; [lia|].
  intros Hrec; destruct (total_failed_counts rows Hrec) as [Hsum Hb].
  pose proof (count_complement (fun r => py_bool (failed r)) rows) as Hc.
  split; [exact Hsum|]. split; [lia|]. split; [exact Hb|]. split; [lia|].
  destruct (Z.of_nat (length rows) >? 0) eqn:E.
  - apply truediv_unit; [exact Hb|].
    rewrite Z.gtb_ltb in E; now apply Z.ltb_lt.
  - split; lra.
Qed.

Lemma baseline_totals_witness :
  total_failed (compute_baseline Samples.four_rows) = 2 /\
  total_passed (compute_baseline Samples.four_rows) = 2 /\
  (0 <= baseline_failure_rate (compute_baseline Samples.four_rows) <= 1)%Q.
Proof.
  assert (Hrec : Forall recorded Samples.four_rows)
    by (repeat constructor; unfold recorded; cbn; tauto).
  destruct (proj2 (proj2 (baseline_totals Samples.four_rows)) Hrec)
    as [H1 [H2 [_ [_ H5]]]].
  exact (conj H1 (conj H2 H5)).
Defined.

(** X11.  Every ranked predicate has a support of at most [total_runs];
    on recorded rows its [failed_P] is at most [total_failed], its
    [passed_P] at most [total_passed], and its [failure_P] lies between 0
    and 1. *)
Theorem ranked_entry_within_totals (rows : list Row)
    (out : list PredResult) (r : PredResult) :
  snd (analyze_predicates rows (compute_baseline rows)) = Some out ->
  In r out ->
  support r <= total_runs (compute_baseline rows) /\
  (Forall recorded rows ->
   failed_P r <= total_failed (compute_baseline rows) /\
   passed_P r <= total_passed (compute_baseline rows) /\
   (0 <= failure_P r <= 1)%Q).
Proof.
  intros Hout Hin.
  destruct (ranked_entry rows out r Hout Hin) as [s [Hs Hr]].
  destruct (accumulate_counts rows) as [_ [_ [Hok Hcount]]].
  destruct (Hcount _ _ Hs) as [H1 [H2 H3]].
  rewrite Forall_forall in Hok.
  destruct (Hok _ Hs) as [_ [_ [Hf _]]]; cbn [snd] in Hf.
  rewrite Hr; cbn [score support failed_P passed_P failure_P].
  rewrite H1, H2, H3 in *.
  split; [apply count_nonneg|].
  intros Hrec.
  destruct (total_failed_counts rows Hrec) as [Hsum Hb].
  assert (Hpass : total_passed (compute_baseline rows)
                  = count (fun r => negb (py_bool (failed r))) rows).
  { pose proof (count_complement (fun r => py_bool (failed r)) rows).
    cbn [compute_baseline total_passed]; lia. }
  change (sum (map failed rows))
    with (total_failed (compute_baseline rows)) in Hsum, Hb.
  assert (Hfle : failed_of (name r) rows
                 <= total_failed (compute_baseline rows)).
  { rewrite Hsum; apply count_le; intros row E.
    now apply andb_true_iff in E. }
  split; [exact Hfle|].
  split.
  { rewrite Hpass; apply count_le; intros row E.
    now apply andb_true_iff in E. }
  destruct (total_failed (compute_baseline rows) >? 0) eqn:E.
  - apply truediv_unit; [lia|].
    rewrite Z.gtb_ltb in E; now apply Z.ltb_lt.
  - split; lra.
Qed.

Lemma ranked_entry_within_totals_witness :
  support Samples.p1_entry <= 4 /\
  failed_P Samples.p1_entry <= 2 /\
  (0 <= failure_P Samples.p1_entry <= 1)%Q.
Proof.
  pose proof (ranked_entry_within_totals Samples.four_rows
                (sort_desc (map (score (compute_baseline Samples.four_rows))
                              (accumulate Samples.four_rows)))
                Samples.p1_entry eq_refl
                ltac:(vm_compute; tauto)) as [H1 H2].
  assert (Hrec : Forall recorded Samples.four_rows)
    by (repeat constructor; unfold recorded; cbn; tauto).
  destruct (H2 Hrec) as [H3 [_ H4]].
  exact (conj H1 (conj H3 H4)).
Defined.

End Bounds.

(** ** The analyzer: what the ranking holds *)

Section RankingFurther.
Import Analyzer Measure.

Lemma ranked_names (rows : list Row) (out : list PredResult) :
  snd (analyze_predicates rows (compute_baseline rows)) = Some out ->
  Permutation out (map (score (compute_baseline rows)) (accumulate rows)) /\
  Permutation (map name out) (map fst (accumulate rows)) /\
  NoDup (map name out).
Proof.
  intros Hout; destruct (analyze_returns rows out Hout) as [_ ->].
  pose proof (sort_desc_perm
                (map (score (compute_baseline rows)) (accumulate rows)))
    as Hperm.
  assert (Hn : Permutation
                 (map name (sort_desc (map (score (compute_baseline rows))
                                         (accumulate rows))))
                 (map fst (accumulate rows)))
    by (rewrite <- (score_names (compute_baseline rows));
        now apply Permutation_map).
  split; [exact Hperm|]. split; [exact Hn|].
  destruct (accumulate_counts rows) as [_ [Hnd _]].
  exact (Permutation_NoDup (Permutation_sym Hn) Hnd).
Qed.

(** The ranked entries are the entries of the predicates with support. *)
Lemma ranked_iff (rows : list Row) (out : list PredResult) (r : PredResult) :
  snd (analyze_predicates rows (compute_baseline rows)) = Some out ->
  (In r out <->
   exists n, 1 <= support_of n rows /\ r = Shape.entry_of rows n).
Proof.
  intros Hout.
  destruct (accumulate_counts rows) as [_ [_ [_ Hcount]]].
  split.
  - intros Hin.
    destruct (ranked_entry rows out r Hout Hin) as [s [Hs Hr]].
    destruct (Hcount _ _ Hs) as [H1 [H2 H3]].
    exists (name r); split.
    + apply accumulate_keys, in_map_iff; now exists (name r, s).
    + rewrite Hr at 1; unfold Shape.entry_of; cbn [score name].
      destruct s; cbn in H1, H2, H3; now subst.
  - intros [n [Hsup ->]].
    apply accumulate_keys, in_map_iff in Hsup.
    destruct Hsup as [[k s] [Hk Hs]]; cbn in Hk; subst k.
    destruct (Hcount _ _ Hs) as [H1 [H2 H3]].
    destruct (ranked_names rows out Hout) as [Hperm _].
    apply (Permutation_in _ (Permutation_sym Hperm)), in_map_iff.
    exists (n, s); split; [|exact Hs].
    unfold Shape.entry_of; destruct s; cbn in H1, H2, H3; now subst.
Qed.

Lemma count_pos_exists (p : Row -> bool) (rows : list Row) :
  1 <= count p rows -> exists r, In r rows /\ p r = true.
Proof.
  induction rows as [|row rows IH]; [unfold count; cbn; lia|].
  rewrite count_cons; destruct (p row) eqn:E.
  - intros _; exists row; split; [now left | exact E].
  - intros Hc; destruct (IH ltac:(lia)) as [r [Hin Hp]].
    exists r; split; [now right | exact Hp].
Qed.

Lemma assoc_Some_In {A} (n : string) (v : A) (items : list (string * A)) :
  assoc n items = Some v -> In n (map fst items).
Proof.
  induction items as [|[k w] items IH]; cbn; [discriminate|].
  destruct (String.eqb k n) eqn:E.
  - apply String.eqb_eq in E; now left.
  - intros Ha; right; now apply IH.
Qed.

(** X12.  The ranking never names anything but the eight predicates of
    [define_predicates], each at most once: it has at most eight entries. *)
Theorem ranking_within_predicates (rows : list Row) (out : list PredResult) :
  snd (analyze_predicates rows (compute_baseline rows)) = Some out ->
  incl (map name out) Shape.predicate_names /\
  NoDup (map name out) /\
  (length out <= 8)%nat.
Proof.
  intros Hout; destruct (ranked_names rows out Hout) as [_ [Hn Hnd]].
  assert (Hincl : incl (map name out) Shape.predicate_names).
  { intros n Hin; apply (Permutation_in _ Hn), accumulate_keys in Hin.
    destruct (count_pos_exists _ _ Hin) as [row [_ Hh]].
    unfold holds in Hh.
    destruct (assoc n (define_predicates row)) as [v|] eqn:Ea;
      [|discriminate].
    exact (assoc_Some_In n v _ Ea). }
  split; [exact Hincl|]. split; [exact Hnd|].
  rewrite <- (length_map name).
  exact (NoDup_incl_length Hnd Hincl).
Qed.

Lemma ranking_within_predicates_witness :
  exists out,
    snd (analyze_predicates Samples.four_rows
           (compute_baseline Samples.four_rows)) = Some out /\
    incl (map name out) Shape.predicate_names /\
    (length out <= 8)%nat.
Proof.
  eexists; split; [reflexivity|].
  destruct (ranking_within_predicates Samples.four_rows _ eq_refl)
    as [H1 [_ H2]].
  exact (conj H1 H2).
Defined.

Lemma holds_size_predicates (row : Row) :
  holds "P6_very_large_file" row = (original_size row >? 50 * 1024 * 1024) /\
  holds "P7_small_file" row = (original_size row <? 100 * 1024) /\
  holds "P8_medium_file" row =
    ((100 * 1024 <=? original_size row)
     && (original_size row <=? 10 * 1024 * 1024)).
Proof. repeat split. Qed.

(** X13.  The three size predicates and the sizes they leave out (above
    10 MiB and at most 50 MiB) divide the rows: every row counts for
    exactly one of them, so the supports of P6, P7 and P8 and the number of
    rows in the gap add up to the number of rows. *)
Theorem size_predicates_partition (rows : list Row) :
  support_of "P6_very_large_file" rows
  + support_of "P7_small_file" rows
  + support_of "P8_medium_file" rows
  + count Shape.between_medium_and_very_large rows
  = Z.of_nat (length rows).
Proof.
  unfold support_of; induction rows as [|row rows IH]; [reflexivity|].
  rewrite !count_cons; cbn [length]; rewrite Nat2Z.inj_succ, <- IH.
  destruct (holds_size_predicates row) as [-> [-> ->]].
  unfold Shape.between_medium_and_very_large.
  destruct (Z.gtb_spec (original_size row) (50 * 1024 * 1024));
    destruct (Z.ltb_spec (original_size row) (100 * 1024));
    destruct (Z.leb_spec (100 * 1024) (original_size row));
    destruct (Z.leb_spec (original_size row) (10 * 1024 * 1024));
    destruct (Z.ltb_spec (10 * 1024 * 1024) (original_size row));
    destruct (Z.leb_spec (original_size row) (50 * 1024 * 1024));
    cbn [andb]; lia.
Qed.

End RankingFurther.

Section RankingOrder.
Import Analyzer Measure.

Lemma truediv_zero (b : Z) : (truediv 0 b == 0)%Q.
Proof.
  unfold truediv, Qdiv; change (inject_Z 0) with 0%Q; apply Qmult_0_l.
Qed.

Lemma truediv_same (a : Z) : 0 < a -> (truediv a a == 1)%Q.
Proof.
  intros Ha; unfold truediv, Qdiv; apply Qmult_inv_r.
  change 0%Q with (inject_Z 0); rewrite inject_Z_injective; lia.
Qed.

Lemma failure_rate_unit (f s : Z) :
  0 <= f <= s -> (0 <= failure_rate_when_P f s <= 1)%Q.
Proof.
  intros Hfs; unfold failure_rate_when_P.
  destruct (s >? 0) eqn:E; [|split; lra].
  apply truediv_unit; [exact Hfs|].
  rewrite Z.gtb_ltb in E; now apply Z.ltb_lt.
Qed.

Lemma failed_of_le_support (n : string) (rows : list Row) :
  0 <= failed_of n rows <= support_of n rows.
Proof.
  split; [apply count_nonneg|].
  apply count_le; intros row E; now apply andb_true_iff in E.
Qed.

(** A list whose keys are all equal is left as it is by the sort. *)
Lemma sort_desc_id (l : list PredResult) :
  (forall a b, In a l -> In b l -> key_lt a b = false) -> sort_desc l = l.
Proof.
  induction l as [|x l IH]; intros Hflat; [reflexivity|].
  cbn [sort_desc]; rewrite IH
    by (intros a b Ha Hb; apply Hflat; now right).
  destruct l as [|y l]; [reflexivity|].
  cbn [insert_desc]; now rewrite (Hflat x y) by (cbn; tauto).
Qed.

(** X14.  When no recorded row failed, every ranked predicate has
    [failed_P = 0], [failure_P = 0] and [increase = 0]; all keys being
    equal, the ranking lists the predicates in the order in which they were
    first seen in the rows. *)
Theorem no_failure_flat_ranking (rows : list Row) (out : list PredResult) :
  Forall recorded rows ->
  total_failed (compute_baseline rows) = 0 ->
  snd (analyze_predicates rows (compute_baseline rows)) = Some out ->
  (forall r, In r out ->
     failed_P r = 0 /\ passed_P r = support r /\
     failure_P r = 0%Q /\ (increase r == 0)%Q) /\
  map name out = first_seen rows.
Proof.
  intros Hrec Hzero Hout.
  destruct (total_failed_counts rows Hrec) as [Hsum _].
  change (sum (map failed rows))
    with (total_failed (compute_baseline rows)) in Hsum.
  assert (Hf0 : forall n, failed_of n rows = 0).
  { intros n; pose proof (count_nonneg
      (fun r => holds n r && py_bool (failed r)) rows) as [Hge _].
    assert (failed_of n rows <= count (fun r => py_bool (failed r)) rows)
      by (apply count_le; intros row E; now apply andb_true_iff in E).
    unfold failed_of in *; lia. }
  assert (Hbase : (baseline_failure_rate (compute_baseline rows) == 0)%Q).
  { cbn [compute_baseline baseline_failure_rate total_failed] in *.
    rewrite Hzero; destruct (Z.of_nat (length rows) >? 0);
      [apply truediv_zero | reflexivity]. }
  assert (Hall : forall r,
             In r (map (score (compute_baseline rows)) (accumulate rows)) ->
             failed_P r = 0 /\ passed_P r = support r /\
             failure_P r = 0%Q /\ (increase r == 0)%Q).
  { intros r Hin; apply in_map_iff in Hin.
    destruct Hin as [[k s] [<- Hs]].
    destruct (accumulate_counts rows) as [_ [_ [Hok Hcount]]].
    destruct (Hcount _ _ Hs) as [H1 [H2 H3]].
    rewrite Forall_forall in Hok; destruct (Hok _ Hs) as [E _].
    cbn [snd] in E.
    cbn [score failed_P passed_P support failure_P increase].
    rewrite H2, (Hf0 k) in *; rewrite Hzero.
    split; [reflexivity|]. split; [lia|]. split; [reflexivity|].
    rewrite Hbase; unfold failure_rate_when_P.
    destruct (s_support s >? 0); [rewrite truediv_zero|]; reflexivity. }
  destruct (analyze_returns rows out Hout) as [_ ->].
  rewrite sort_desc_id.
  - split; [exact Hall|].
    rewrite score_names; apply accumulate_counts.
  - intros a b Ha Hb.
    destruct (Hall a Ha) as [_ [_ [Fa Ia]]].
    destruct (Hall b Hb) as [_ [_ [Fb Ib]]].
    unfold key_lt.
    replace (increase a ?= increase b)%Q with Eq
      by (symmetry; apply Qeq_alt; now rewrite Ia, Ib).
    rewrite Fa, Fb; reflexivity.
Qed.

End RankingOrder.

Section RankingOrderWitness.
Import Analyzer Measure.

Lemma no_failure_flat_ranking_witness :
  exists out,
    snd (analyze_predicates Samples.passed_rows
           (compute_baseline Samples.passed_rows)) = Some out /\
    map name out = [ "P7_small_file"; "P1_is_large_file" ] /\
    forall r, In r out ->
      failed_P r = 0 /\ passed_P r = support r /\
      failure_P r = 0%Q /\ (increase r == 0)%Q.
Proof.
  eexists; split; [reflexivity|].
  assert (Hrec : Forall recorded Samples.passed_rows)
    by (repeat constructor; unfold recorded; cbn; tauto).
  destruct (no_failure_flat_ranking Samples.passed_rows _ Hrec eq_refl
              eq_refl) as [Hall Hnames].
  split; [exact Hnames | exact Hall].
Defined.

Lemma faithful_recorded (rows : list Row) :
  Forall Shape.faithful rows -> Forall recorded rows.
Proof.
  apply Forall_impl; intros r [[E | E] F]; unfold recorded; lia.
Qed.

Lemma holds_checksum_failed (row : Row) :
  Shape.faithful row ->
  holds "P3_checksum_failed" row = py_bool (failed row).
Proof.
  intros [[E | E] F]; change (holds "P3_checksum_failed" row)
    with (negb (py_bool (checksum_ok row))); rewrite F, E; reflexivity.
Qed.

(** On faithful rows the three counts of P3 are those of the failures. *)
Lemma checksum_failed_counts (rows : list Row) :
  Forall Shape.faithful rows ->
  support_of "P3_checksum_failed" rows = total_failed (compute_baseline rows)
  /\ failed_of "P3_checksum_failed" rows
     = total_failed (compute_baseline rows)
  /\ passed_of "P3_checksum_failed" rows = 0.
Proof.
  intros Hf.
  destruct (total_failed_counts rows (faithful_recorded rows Hf)) as [Hs _].
  change (sum (map failed rows))
    with (total_failed (compute_baseline rows)) in Hs.
  rewrite Hs; unfold support_of, failed_of, passed_of.
  split; [|split].
  - apply count_ext; revert Hf; apply Forall_impl; intros r Hr.
    now apply holds_checksum_failed.
  - apply count_ext; revert Hf; apply Forall_impl; intros r Hr.
    rewrite (holds_checksum_failed r Hr); now destruct (py_bool (failed r)).
  - transitivity (count (fun _ => false) rows).
    + apply count_ext; revert Hf; apply Forall_impl; intros r Hr.
      rewrite (holds_checksum_failed r Hr); now destruct (py_bool (failed r)).
    + unfold count; clear; induction rows; [reflexivity | exact IHrows].
Qed.

(** X15.  On rows as the recorder writes them ([failed] the complement of
    [checksum_ok]), P3 is ranked exactly when some transfer failed; it then
    has no passed row, its [failed_P] and its support are [total_failed],
    its [failure_P] is 1, its [increase] is 1 minus the baseline, and no
    ranked predicate has a key above its own. *)
Theorem checksum_failed_tops_ranking (rows : list Row)
    (out : list PredResult) :
  Forall Shape.faithful rows ->
  snd (analyze_predicates rows (compute_baseline rows)) = Some out ->
  (In "P3_checksum_failed" (map name out) <->
   1 <= total_failed (compute_baseline rows)) /\
  forall p3, In p3 out -> name p3 = "P3_checksum_failed" ->
    passed_P p3 = 0 /\
    failed_P p3 = total_failed (compute_baseline rows) /\
    support p3 = total_failed (compute_baseline rows) /\
    (failure_P p3 == 1)%Q /\
    (increase p3 == 1 - baseline_failure_rate (compute_baseline rows))%Q /\
    forall r, In r out -> key_ge p3 r.
Proof.
  intros Hf Hout.
  destruct (checksum_failed_counts rows Hf) as [Hsup [Hfail Hpass]].
  destruct (ranked_names rows out Hout) as [_ [Hn _]].
  split.
  { rewrite <- Hsup, <- accumulate_keys; split; intros Hin.
    - now apply (Permutation_in _ Hn).
    - now apply (Permutation_in _ (Permutation_sym Hn)). }
  intros p3 Hin Hname.
  apply (ranked_iff rows out p3 Hout) in Hin.
  destruct Hin as [n [Hpos ->]].
  unfold Shape.entry_of in Hname; cbn [score name] in Hname; subst n.
  rewrite Hsup in Hpos.
  set (tf := total_failed (compute_baseline rows)) in *.
  assert (Htf : (tf >? 0) = true)
    by (rewrite Z.gtb_ltb; apply Z.ltb_lt; lia).
  assert (Hfp : (failure_P (Shape.entry_of rows "P3_checksum_failed") == 1)%Q).
  { unfold Shape.entry_of; cbn [score failure_P s_failed_P].
    fold tf; rewrite Htf, Hfail; apply truediv_same; lia. }
  assert (Hinc :
    (increase (Shape.entry_of rows "P3_checksum_failed")
     == 1 - baseline_failure_rate (compute_baseline rows))%Q).
  { unfold Shape.entry_of;
      cbn [score increase s_failed_P s_support].
    unfold failure_rate_when_P; rewrite Hfail, Hsup, Htf.
    now rewrite truediv_same by lia. }
  unfold Shape.entry_of at 1 2 3;
    cbn [score passed_P failed_P support s_failed_P s_passed_P s_support].
  split; [exact Hpass|]. split; [exact Hfail|]. split; [exact Hsup|].
  split; [exact Hfp|]. split; [exact Hinc|].
  intros r Hr; apply (ranked_iff rows out r Hout) in Hr.
  destruct Hr as [m [Hm ->]].
  pose proof (failed_of_le_support m rows) as Hfs.
  pose proof (failure_rate_unit _ _ Hfs) as [_ Hrate].
  assert (Hfm : failed_of m rows <= tf).
  { destruct (total_failed_counts rows (faithful_recorded rows Hf))
      as [Hs _].
    change (sum (map failed rows)) with tf in Hs; rewrite Hs.
    apply count_le; intros row E; now apply andb_true_iff in E. }
  assert (Hfpm : (failure_P (Shape.entry_of rows m) <= 1)%Q).
  { unfold Shape.entry_of; cbn [score failure_P s_failed_P].
    fold tf; rewrite Htf; apply truediv_unit; lia. }
  assert (Hincm :
    (increase (Shape.entry_of rows m)
     = failure_rate_when_P (failed_of m rows) (support_of m rows)
       - baseline_failure_rate (compute_baseline rows))%Q)
    by reflexivity.
  unfold key_ge; rewrite Hinc, Hfp, Hincm.
  destruct (Qlt_le_dec
              (failure_rate_when_P (failed_of m rows) (support_of m rows)) 1)
    as [Hlt | Hge].
  - left; lra.
  - right; split; [lra | exact Hfpm].
Qed.

Lemma checksum_failed_tops_ranking_witness :
  In "P3_checksum_failed"
    (map name (sort_desc (map (score (compute_baseline Samples.four_rows))
                            (accumulate Samples.four_rows)))) /\
  passed_P Samples.p3_entry = 0 /\
  key_ge Samples.p3_entry Samples.p1_entry.
Proof.
  assert (Hf : Forall Shape.faithful Samples.four_rows)
    by (repeat constructor; unfold Shape.faithful; cbn; tauto).
  destruct (checksum_failed_tops_ranking Samples.four_rows _ Hf eq_refl)
    as [Hin Hp3].
  split; [apply Hin; vm_compute; discriminate|].
  destruct (Hp3 Samples.p3_entry ltac:(vm_compute; tauto) eq_refl)
    as [H1 [_ [_ [_ [_ H6]]]]].
  split; [exact H1 | apply H6; vm_compute; tauto].
Defined.

End RankingOrderWitness.

Section RowOrder.
Import Analyzer Measure.

Lemma sum_perm (l l' : list Z) : Permutation l l' -> sum l = sum l'.
Proof.
  induction 1 as [| x l l' _ IH | x y l | l l' l'' _ IH1 _ IH2];
    rewrite ?sum_cons; lia.
Qed.

Lemma count_perm (p : Row -> bool) (rows rows' : list Row) :
  Permutation rows rows' -> count p rows = count p rows'.
Proof.
  induction 1 as [| x l l' _ IH | x y l | l l' l'' _ IH1 _ IH2];
    rewrite ?count_cons; lia.
Qed.

Lemma analyze_none (rows : list Row) :
  snd (analyze_predicates rows (compute_baseline rows)) = None <-> rows = [].
Proof.
  destruct rows as [|row rows]; [split; reflexivity|].
  rewrite analyze_nonempty by discriminate; split; discriminate.
Qed.

(** X16.  The analysis does not depend on the order of the rows: two
    stores holding the same rows in different orders give the same
    baseline and, for every predicate, the same entry (counts, [failure_P]
    and [increase]); one has a ranking exactly when the other has, and the
    two rankings hold the same entries, both sorted by descending key.
    Only entries with equal keys can change places. *)
Theorem analysis_ignores_row_order (rows rows' : list Row) :
  Permutation rows rows' ->
  compute_baseline rows = compute_baseline rows' /\
  (forall n, support_of n rows = support_of n rows' /\
             Shape.entry_of rows n = Shape.entry_of rows' n) /\
  (snd (analyze_predicates rows (compute_baseline rows)) = None <->
   snd (analyze_predicates rows' (compute_baseline rows')) = None) /\
  forall out out',
    snd (analyze_predicates rows (compute_baseline rows)) = Some out ->
    snd (analyze_predicates rows' (compute_baseline rows')) = Some out' ->
    Permutation out out' /\
    StronglySorted key_ge out /\ StronglySorted key_ge out'.
Proof.
  intros Hperm.
  assert (Hbase : compute_baseline rows = compute_baseline rows').
  { unfold compute_baseline.
    rewrite (Permutation_length Hperm),
      (sum_perm _ _ (Permutation_map failed Hperm)).
    reflexivity. }
  assert (Hentry : forall n, support_of n rows = support_of n rows' /\
                             Shape.entry_of rows n = Shape.entry_of rows' n).
  { intros n; unfold Shape.entry_of, support_of, failed_of, passed_of.
    rewrite Hbase, !(count_perm _ rows rows' Hperm); split; reflexivity. }
  split; [exact Hbase|]. split; [exact Hentry|].
  split.
  { rewrite !analyze_none; split; intros ->.
    - now apply Permutation_nil.
    - now apply Permutation_nil, Permutation_sym. }
  intros out out' Hout Hout'.
  split.
  - apply NoDup_Permutation.
    + apply (NoDup_map_inv name), (ranked_names rows out Hout).
    + apply (NoDup_map_inv name), (ranked_names rows' out' Hout').
    + intros r; rewrite (ranked_iff rows out r Hout),
        (ranked_iff rows' out' r Hout').
      split; intros [n [Hn ->]]; exists n; destruct (Hentry n) as [Es Ee];
        (split; [lia | congruence]).
  - destruct (analyze_returns rows out Hout) as [_ ->].
    destruct (analyze_returns rows' out' Hout') as [_ ->].
    split; apply sort_desc_sorted.
Qed.

Lemma analysis_ignores_row_order_witness :
  compute_baseline (rev Samples.four_rows)
    = compute_baseline Samples.four_rows /\
  Permutation
    (sort_desc (map (score (compute_baseline (rev Samples.four_rows)))
                  (accumulate (rev Samples.four_rows))))
    (sort_desc (map (score (compute_baseline Samples.four_rows))
                  (accumulate Samples.four_rows))).
Proof.
  destruct (analysis_ignores_row_order (rev Samples.four_rows)
              Samples.four_rows
              (Permutation_sym (Permutation_rev Samples.four_rows)))
    as [H1 [_ [_ H4]]].
  split; [exact H1|].
  exact (proj1 (H4 _ _ eq_refl eq_refl)).
Defined.

End RowOrder.

(** ** The sampler *)

(** X17.  Whatever the text and whatever [float] makes of it,
    [_make_sampler] hands [TraceIdRatioBased] a finite ratio between 0 and
    1.  For ["always_on"] the ratio is 1.  For any other text that parses to
    a number between 0 and 1 it is that number.  In every other case (a
    text that does not parse, a number out of range, an infinity, a NaN) it
    is 1. *)
Theorem make_sampler_ratio_in_range
    (float_of_string : string -> option Telemetry.PyFloat)
    (sampling : string) :
  (exists q,
     Telemetry._make_sampler float_of_string sampling = Telemetry.Finite q /\
     (0 <= q <= 1)%Q) /\
  (sampling = "always_on" ->
   Telemetry._make_sampler float_of_string sampling = Telemetry.Finite 1) /\
  (forall q,
     sampling <> "always_on" ->
     float_of_string sampling = Some (Telemetry.Finite q) ->
     (0 <= q <= 1)%Q ->
     Telemetry._make_sampler float_of_string sampling = Telemetry.Finite q) /\
  (sampling <> "always_on" ->
   (forall q, float_of_string sampling = Some (Telemetry.Finite q) ->
              ~ (0 <= q <= 1)%Q) ->
   Telemetry._make_sampler float_of_string sampling = Telemetry.Finite 1).
Proof.
  unfold Telemetry._make_sampler.
  destruct (String.eqb sampling "always_on") eqn:E.
  - apply String.eqb_eq in E.
    split; [exists 1%Q; split; [reflexivity | lra]|].
    split; [reflexivity|]. split; intros; congruence.
  - apply String.eqb_neq in E.
    destruct (float_of_string sampling) as [[q| | |]|];
      cbn [Telemetry.float_le andb];
      try (split; [exists 1%Q; split; [reflexivity | lra]|];
           split; [congruence|]; split; [intros; discriminate|];
           reflexivity).
    destruct (Qle_bool 0 q) eqn:E0; cbn [andb];
      [destruct (Qle_bool q 1) eqn:E1|].
    + apply Qle_bool_iff in E0, E1.
      split; [exists q; split; [reflexivity | split; assumption]|].
      split; [congruence|].
      split; [intros q0 _ [= <-] _; reflexivity|].
      intros _ Hout; exfalso; apply (Hout q eq_refl); split; assumption.
    + split; [exists 1%Q; split; [reflexivity | lra]|].
      split; [congruence|].
      split; [|reflexivity].
      intros q0 _ [= <-] [_ Hle]; apply Qle_bool_iff in Hle; congruence.
    + split; [exists 1%Q; split; [reflexivity | lra]|].
      split; [congruence|].
      split; [|reflexivity].
      intros q0 _ [= <-] [Hge _]; apply Qle_bool_iff in Hge; congruence.
Qed.

(** The texts ["0.2"], ["2"], ["nan"] and ["often"] under a [float] that
    knows the first three. *)
Lemma make_sampler_ratio_in_range_witness :
  Telemetry._make_sampler RunSamples.sample_float "0.2"
    = Telemetry.Finite RunSamples.float_0_2 /\
  Telemetry._make_sampler RunSamples.sample_float "2" = Telemetry.Finite 1 /\
  Telemetry._make_sampler RunSamples.sample_float "nan"
    = Telemetry.Finite 1 /\
  Telemetry._make_sampler RunSamples.sample_float "often"
    = Telemetry.Finite 1 /\
  Telemetry._make_sampler RunSamples.sample_float "always_on"
    = Telemetry.Finite 1.
Proof.
  split; [|split; [|split; [|split]]].
  - destruct (make_sampler_ratio_in_range RunSamples.sample_float "0.2")
      as [_ [_ [Hin _]]].
    apply Hin; [discriminate | reflexivity |].
    split; vm_compute; discriminate.
  - destruct (make_sampler_ratio_in_range RunSamples.sample_float "2")
      as [_ [_ [_ Hout]]].
    apply Hout; [discriminate|].
    intros q [= <-] [_ Hle]; vm_compute in Hle; congruence.
  - destruct (make_sampler_ratio_in_range RunSamples.sample_float "nan")
      as [_ [_ [_ Hout]]].
    apply Hout; [discriminate | intros q; discriminate].
  - destruct (make_sampler_ratio_in_range RunSamples.sample_float "often")
      as [_ [_ [_ Hout]]].
    apply Hout; [discriminate | intros q; discriminate].
  - destruct (make_sampler_ratio_in_range RunSamples.sample_float
                "always_on") as [_ [Hon _]].
    exact (Hon eq_refl).
Defined.

(** ** The generator of test files *)

Lemma chars_ascii :
  Forall (fun b => (Byte.to_N b < 128)%N) Generate.chars.
Proof. repeat constructor. Qed.

Lemma choices_shape (count : nat) :
  forall g : Generate.Picker,
  length (fst (Generate.choices count g)) = count /\
  Forall (fun b => In b Generate.chars) (fst (Generate.choices count g)) /\
  Generate.at_pick (snd (Generate.choices count g))
    = (Generate.at_pick g + count)%nat /\
  Generate.picks (snd (Generate.choices count g)) = Generate.picks g.
Proof.
  induction count as [|count IH]; intros g; cbn [Generate.choices].
  - cbn; repeat split; [constructor | lia].
  - unfold Generate.choice, Generate.randbelow.
    match goal with
    | |- context [Generate.choices count ?g1] =>
        destruct (IH g1) as [H1 [H2 [H3 H4]]];
        destruct (Generate.choices count g1) as [rest g2]
    end.
    cbn [fst snd length] in *.
    split; [now rewrite H1|].
    split; [|split; [rewrite H3; cbn; lia | exact H4]].
    constructor; [|exact H2].
    apply nth_In, Nat.mod_upper_bound; discriminate.
Qed.

(** X18.  [random_text_bytes(size)] returns exactly [size] bytes (none for
    a negative size), each of them one of the 64 characters of the
    alphabet, hence an ASCII byte, and draws from the generator exactly
    once per byte. *)
Theorem random_text_bytes_shape (size : Z) (g : Generate.Picker) :
  length (fst (Generate.random_text_bytes size g)) = Z.to_nat size /\
  Forall (fun b => In b Generate.chars /\ (Byte.to_N b < 128)%N)
    (fst (Generate.random_text_bytes size g)) /\
  length Generate.chars = 64%nat /\
  Generate.at_pick (snd (Generate.random_text_bytes size g))
    = (Generate.at_pick g + Z.to_nat size)%nat.
Proof.
  unfold Generate.random_text_bytes.
  destruct (choices_shape (Z.to_nat size) g) as [H1 [H2 [H3 _]]].
  split; [exact H1|]. split; [|split; [reflexivity | exact H3]].
  pose proof chars_ascii as Hascii; rewrite Forall_forall in *.
  intros b Hb; split; [now apply H2 | now apply Hascii, H2].
Qed.

(** ** The client's [main] *)

Lemma string_compare_trans (a : string) :
  forall b c,
  String.compare a b <> Gt -> String.compare b c <> Gt ->
  String.compare a c <> Gt.
Proof.
  induction a as [|x a IH]; intros [|y b] [|z c]; cbn; try congruence.
  unfold Ascii.compare.
  destruct (N.compare_spec (N_of_ascii x) (N_of_ascii y)) as [E1|L1|G1];
    destruct (N.compare_spec (N_of_ascii y) (N_of_ascii z)) as [E2|L2|G2];
    destruct (N.compare_spec (N_of_ascii x) (N_of_ascii z)) as [E3|L3|G3];
    intros; try congruence; try lia; now apply (IH b c).
Qed.

Lemma string_leb_trans (a b c : string) :
  String.leb a b = true -> String.leb b c = true -> String.leb a c = true.
Proof.
  unfold String.leb; intros Hab Hbc.
  pose proof (string_compare_trans a b c) as Ht.
  destruct (String.compare a b); destruct (String.compare b c);
    destruct (String.compare a c); try reflexivity; try discriminate;
    exfalso; apply Ht; congruence.
Qed.

Lemma string_ltb_leb (a b : string) :
  String.ltb a b = true -> String.leb a b = true.
Proof.
  unfold String.ltb, String.leb; now destruct (String.compare a b).
Qed.

Lemma string_not_ltb_leb (a b : string) :
  String.ltb a b = false -> String.leb b a = true.
Proof.
  unfold String.ltb, String.leb; rewrite (String.compare_antisym b a).
  now destruct (String.compare a b).
Qed.

Section ListingOrder.
Import ClientRun.

Lemma insert_entry_perm (x : string * DirEntry) (l : list (string * DirEntry)) :
  Permutation (insert_entry x l) (x :: l).
Proof.
  induction l as [|y l IH]; cbn; [reflexivity|].
  destruct (String.ltb (fst y) (fst x)); [|reflexivity].
  rewrite IH; apply perm_swap.
Qed.

Lemma sorted_perm (l : list (string * DirEntry)) : Permutation (sorted l) l.
Proof.
  induction l as [|x l IH]; cbn; [reflexivity|].
  now rewrite insert_entry_perm, IH.
Qed.

Lemma insert_entry_sorted (x : string * DirEntry)
    (l : list (string * DirEntry)) :
  StronglySorted (fun a b => String.leb (fst a) (fst b) = true) l ->
  StronglySorted (fun a b => String.leb (fst a) (fst b) = true)
    (insert_entry x l).
Proof.
  induction l as [|y l IH]; cbn; intros Hs; [repeat constructor|].
  inversion Hs as [|? ? Hl Hy]; subst.
  destruct (String.ltb (fst y) (fst x)) eqn:E.
  - constructor; [now apply IH|].
    rewrite Forall_forall; intros z Hz.
    apply (Permutation_in _ (insert_entry_perm x l)) in Hz.
    destruct Hz as [<- | Hz]; [now apply string_ltb_leb|].
    rewrite Forall_forall in Hy; now apply Hy.
  - apply string_not_ltb_leb in E.
    constructor; [exact Hs|].
    constructor; [exact E|].
    rewrite Forall_forall in *; intros z Hz.
    exact (string_leb_trans _ _ _ E (Hy z Hz)).
Qed.

Lemma sorted_sorted (l : list (string * DirEntry)) :
  StronglySorted (fun a b => String.leb (fst a) (fst b) = true) (sorted l).
Proof.
  induction l as [|x l IH]; cbn; [constructor | now apply insert_entry_sorted].
Qed.

Lemma filter_perm (f : string * DirEntry -> bool)
    (l l' : list (string * DirEntry)) :
  Permutation l l' -> Permutation (filter f l) (filter f l').
Proof.
  induction 1 as [| x l l' _ IH | x y l | l l' l'' _ IH1 _ IH2]; cbn.
  - constructor.
  - destruct (f x); [apply perm_skip, IH | exact IH].
  - destruct (f x), (f y); try reflexivity; apply perm_swap.
  - now transitivity (filter f l').
Qed.

Lemma regular_names_sorted (l : list (string * DirEntry)) :
  StronglySorted (fun a b => String.leb (fst a) (fst b) = true) l ->
  StronglySorted (fun a b => String.leb a b = true)
    (map fst (filter is_file l)).
Proof.
  induction 1 as [|x l Hl IH Hx]; cbn; [constructor|].
  destruct (is_file x); [|exact IH].
  cbn; constructor; [exact IH|].
  rewrite Forall_forall in *; intros n Hn.
  apply in_map_iff in Hn; destruct Hn as [y [<- Hy]].
  apply filter_In in Hy; now apply Hx.
Qed.

End ListingOrder.

Section RunFacts.
Import ClientRun.
Context `{Sha256} `{Zlib}.
Variable str_float : Q -> string.
Variable cfg : Server.Config.
Variable elapsed_ms : string -> Q.

(** The loop sends every regular file of the list, in order, appending
    one row for each, and passes the other entries by. *)
Lemma send_all_rows (files : list (string * DirEntry)) :
  forall st : State,
  exists st1 new,
    send_all str_float cfg elapsed_ms files st = Some st1 /\
    store st1 =
      match filter is_file files with
      | [] => store st
      | _ :: _ => Some (rows_of (store st) ++ new)
      end /\
    map file_name new = map fst (filter is_file files) /\
    Forall Shape.faithful new /\
    Forall (fun r => bug_triggered r = 1 -> is_large_file r = 1) new /\
    length (outcomes st1)
      = (length (outcomes st) + length (filter is_file files))%nat /\
    (filter is_file files = [] -> st1 = st).
Proof.
  induction files as [|[name [content|]] files IH]; intros st.
  - exists st, []; cbn; repeat split; try constructor; lia.
  - cbn [send_all].
    destruct (send_file_row str_float cfg name content (elapsed_ms name)
                (rng st) (store st))
      as [c [row [_ [Hsend [Hname [_ [_ [_ [_ [_ [Hck [Hfail Hbug]]]]]]]]]]]].
    rewrite Hsend.
    match goal with
    | |- context [send_all _ _ _ files ?s] =>
        destruct (IH s)
          as [st1 [new [Hrun [Hstore [Hnames [Hf [Hb [Hlen _]]]]]]]]
    end.
    exists st1, (row :: new); rewrite Hrun.
    split; [reflexivity|].
    change (filter is_file ((name, File content) :: files))
      with ((name, File content) :: filter is_file files).
    cbn [store rng outcomes] in Hstore, Hlen.
    split.
    { rewrite Hstore; destruct (filter is_file files);
        cbn [rows_of]; [|now rewrite <- app_assoc].
      destruct new; [reflexivity | discriminate Hnames]. }
    split; [cbn [map fst]; now rewrite Hname, Hnames|].
    split; [constructor; [split; assumption | exact Hf]|].
    split; [constructor; [exact Hbug | exact Hb]|].
    split; [rewrite Hlen, length_app; cbn [length]; lia | discriminate].
  - cbn [send_all]; destruct (IH st) as [st1 [new Hall]].
    exists st1, new; exact Hall.
Qed.

(** X19.  [main] raises [RuntimeError] when the client directory does not
    exist.  Otherwise it returns, having sent every regular file of the
    directory exactly once, in ascending order of name, and passed by every
    other entry: the store keeps its rows and gains one row per regular
    file, in that order and under the file's name, each with [failed] the
    complement of [checksum_ok]; one upload is made per regular file.  With
    no regular file the state is unchanged: the store is not even
    created. *)
Theorem client_main_sends_each_file
    (listing : list (string * DirEntry)) (st : State) :
  main str_float cfg elapsed_ms None st = inl RuntimeError /\
  exists st1 new,
    main str_float cfg elapsed_ms (Some listing) st = inr (Some st1) /\
    rows_of (store st1) = rows_of (store st) ++ new /\
    map file_name new = map fst (filter is_file (sorted listing)) /\
    Permutation (filter is_file (sorted listing)) (filter is_file listing) /\
    StronglySorted (fun a b => String.leb a b = true) (map file_name new) /\
    Forall Shape.faithful new /\
    length (outcomes st1) = (length (outcomes st) + length new)%nat /\
    (filter is_file listing = [] -> st1 = st).
Proof.
  split; [reflexivity|].
  destruct (send_all_rows (sorted listing) st)
    as [st1 [new [Hrun [Hstore [Hnames [Hf [_ [Hlen Hnone]]]]]]]].
  assert (Hmain : main str_float cfg elapsed_ms (Some listing) st
                  = inr (Some st1)).
  { unfold main; destruct (sorted listing) eqn:E; [|now rewrite <- Hrun].
    cbn in Hrun; congruence. }
  assert (Hperm : Permutation (filter is_file (sorted listing))
                    (filter is_file listing))
    by (apply filter_perm, sorted_perm).
  exists st1, new; split; [exact Hmain|].
  split.
  { rewrite Hstore; destruct (filter is_file (sorted listing));
      [|reflexivity].
    destruct new; [now rewrite app_nil_r | discriminate Hnames]. }
  split; [exact Hnames|]. split; [exact Hperm|].
  split; [rewrite Hnames; apply regular_names_sorted, sorted_sorted|].
  split; [exact Hf|].
  split.
  { rewrite Hlen, <- (length_map file_name new), Hnames, length_map.
    reflexivity. }
  intros Hnil; apply Hnone.
  rewrite Hnil in Hperm; now apply Permutation_nil, Permutation_sym.
Qed.

End RunFacts.

(** ** The analyzer's [main] *)

Section ReportFacts.
Import Analyzer Measure.

Lemma ranked_lines_map (l : list PredResult) :
  Shape.ranked_lines (map Ranked l) = l.
Proof.
  unfold Shape.ranked_lines; induction l as [|r l IH]; cbn;
    [reflexivity | now f_equal].
Qed.

Lemma ranking_empty_iff (rows : list Row) :
  sort_desc (map (score (compute_baseline rows)) (accumulate rows)) = []
  <-> first_seen rows = [].
Proof.
  destruct (accumulate_counts rows) as [Hkeys _].
  pose proof (sort_desc_perm
                (map (score (compute_baseline rows)) (accumulate rows)))
    as Hperm.
  split; intros E.
  - rewrite E in Hperm; apply Permutation_nil in Hperm.
    rewrite <- Hkeys; now destruct (accumulate rows).
  - rewrite <- Hkeys in E; destruct (accumulate rows); [reflexivity|].
    discriminate E.
Qed.

(** What [main] prints once [load_sd_data] has returned [rows]. *)
Lemma main_report_of_rows (rows : list Row) :
  exists lines,
    main (Some rows) = inr lines /\
    In (Total_runs (Z.of_nat (length rows))) lines /\
    Shape.ranked_lines lines =
      match snd (analyze_predicates rows (compute_baseline rows)) with
      | Some out => out
      | None => []
      end /\
    (In No_rows lines <-> rows = []) /\
    (In No_support lines <-> first_seen rows = []) /\
    (In Ranking_title lines <-> first_seen rows <> []).
Proof.
  destruct rows as [|row rows].
  - eexists; split; [reflexivity|]; cbn.
    repeat split; try tauto; try congruence.
    intros Hin; intuition congruence.
  - unfold main, load_sd_data.
    rewrite analyze_nonempty by discriminate; cbn [snd].
    pose proof (ranking_empty_iff (row :: rows)) as Hiff.
    destruct (sort_desc
                (map (score (compute_baseline (row :: rows)))
                   (accumulate (row :: rows)))) as [|r rs].
    + eexists; split; [reflexivity|].
      split; [cbn; tauto|]. split; [reflexivity|].
      split; [cbn; split; intros; intuition congruence|].
      split; [cbn; split; intros; [now apply Hiff | tauto]|].
      cbn; split; [intros; intuition congruence|].
      intros Hne; exfalso; apply Hne; now apply Hiff.
    + eexists; split; [reflexivity|].
      split; [cbn; tauto|].
      split.
      { cbn [app]; unfold Shape.ranked_lines; cbn [flat_map app].
        apply ranked_lines_map. }
      assert (Hnot : forall (l : Line) (qs : list PredResult),
                 (forall q, l <> Ranked q) -> ~ In l (map Ranked qs)).
      { intros l qs Hl Hin; apply in_map_iff in Hin.
        destruct Hin as [q [E _]]; now apply (Hl q). }
      assert (Hne : first_seen (row :: rows) <> [])
        by (intros E; apply Hiff in E; discriminate).
      split; [|split].
      * cbn [app In]; split; [|discriminate].
        intros Hin; exfalso.
        repeat (destruct Hin as [Hin | Hin]; [discriminate|]).
        now apply (Hnot No_rows _ ltac:(discriminate) Hin).
      * cbn [app In]; split; [|tauto].
        intros Hin; exfalso.
        repeat (destruct Hin as [Hin | Hin]; [discriminate|]).
        now apply (Hnot No_support _ ltac:(discriminate) Hin).
      * cbn [app In]; split; [intros _; exact Hne | tauto].
Qed.

(** X20.  Whenever [load_sd_data] returns rows (the store exists and its
    columns were converted), [main] goes on to print a report without
    raising.  The report gives the number of rows; it says that there are no
    rows exactly when there are none; it prints the ranking title and one
    ranked line per ranked predicate, in ranking order, exactly when some
    predicate is true of some row, and otherwise says that no predicate had
    support. *)
Theorem analyzer_main_report (store : Store) (rows : list Row) :
  load_sd_data store = inr rows ->
  exists lines,
    main store = inr lines /\
    In (Total_runs (Z.of_nat (length rows))) lines /\
    Shape.ranked_lines lines =
      match snd (analyze_predicates rows (compute_baseline rows)) with
      | Some out => out
      | None => []
      end /\
    (In No_rows lines <-> rows = []) /\
    (In No_support lines <-> first_seen rows = []) /\
    (In Ranking_title lines <-> first_seen rows <> []).
Proof.
  destruct store as [rows0|]; [|discriminate].
  cbn [load_sd_data]; intros [= ->]; apply main_report_of_rows.
Qed.

Lemma analyzer_main_report_witness :
  exists lines,
    main (Some Samples.four_rows) = inr lines /\
    In (Total_runs 4) lines /\
    Shape.ranked_lines lines =
      match snd (analyze_predicates Samples.four_rows
                   (compute_baseline Samples.four_rows)) with
      | Some out => out
      | None => []
      end /\
    (In No_rows lines <-> Samples.four_rows = []) /\
    (In No_support lines <-> first_seen Samples.four_rows = []) /\
    (In Ranking_title lines <-> first_seen Samples.four_rows <> []).
Proof.
  exact (analyzer_main_report (Some Samples.four_rows) Samples.four_rows
           eq_refl).
Defined.

End ReportFacts.

(** ** The further properties on the samples *)

Lemma upload_accepts_exactly_valid_witness :
  Server.response
    (Server.upload_file (H := StoredLibs.sha) (H0 := StoredLibs.zlib)
       Server.config Samples.upload_garbage Samples.rng0)
  = Server.RError
      (String.append "decompression_failed: "
         "Error -3 while decompressing data: incorrect header check") /\
  Server.response
    (Server.upload_file (H := StoredLibs.sha) (H0 := StoredLibs.zlib)
       Server.config Samples.upload_without_filename Samples.rng0)
  = Server.RError "missing filename or checksum".
Proof.
  destruct (upload_accepts_exactly_valid (H := StoredLibs.sha)
              (H0 := StoredLibs.zlib) Server.config Samples.upload_garbage
              Samples.rng0) as [_ [_ [Hbody _]]].
  destruct (upload_accepts_exactly_valid (H := StoredLibs.sha)
              (H0 := StoredLibs.zlib) Server.config
              Samples.upload_without_filename Samples.rng0)
    as [_ [Hmeta _]].
  split; [exact (Hbody "a.bin" "00" _ eq_refl eq_refl eq_refl)|].
  exact (Hmeta (or_introl eq_refl)).
Defined.

Lemma send_file_appends_one_row_witness :
  exists c row,
    Client.read_and_compress (H := StoredLibs.sha) (H0 := StoredLibs.zlib)
      Samples.six_bytes Client.default_chunk_size = Some c /\
    Client.send_file (H := StoredLibs.sha) (H0 := StoredLibs.zlib)
      StoredLibs.str_float Samples.tiny_config "a" Samples.six_bytes 12
      Samples.rng0 (Some Samples.four_rows) =
      Some (Some (Samples.four_rows ++ [row]),
            Server.upload_file (H := StoredLibs.sha) (H0 := StoredLibs.zlib)
              Samples.tiny_config
              (Client.request_of StoredLibs.str_float "a" c) Samples.rng0) /\
    file_name row = "a" /\
    original_size row = 6 /\
    compressed_size row = Z.of_nat (length (Client.compressed c)) /\
    latency_ms row = Client.round3 12 /\
    (is_large_file row = 0 \/ is_large_file row = 1) /\
    (bug_triggered row = 0 \/ bug_triggered row = 1) /\
    (checksum_ok row = 0 \/ checksum_ok row = 1) /\
    failed row = 1 - checksum_ok row /\
    (bug_triggered row = 1 -> is_large_file row = 1).
Proof.
  exact (send_file_appends_one_row (H := StoredLibs.sha)
           (H0 := StoredLibs.zlib) StoredLibs.str_float Samples.tiny_config
           "a" Samples.six_bytes 12 Samples.rng0 (Some Samples.four_rows)).
Defined.

Lemma client_main_sends_each_file_witness :
  exists st1 new,
    ClientRun.main (H := StoredLibs.sha) (H0 := StoredLibs.zlib)
      StoredLibs.str_float Samples.tiny_config (fun _ => 12%Q)
      (Some RunSamples.sample_listing) RunSamples.fresh_state
    = inr (Some st1) /\
    rows_of (ClientRun.store st1) = new /\
    map file_name new = [ "a.txt"; "b.bin" ] /\
    length (ClientRun.outcomes st1) = 2%nat.
Proof.
  destruct (client_main_sends_each_file (H := StoredLibs.sha)
              (H0 := StoredLibs.zlib) StoredLibs.str_float
              Samples.tiny_config (fun _ => 12%Q) RunSamples.sample_listing
              RunSamples.fresh_state)
    as [_ [st1 [new [Hmain [Hrows [Hnames [_ [_ [_ [Hlen _]]]]]]]]]].
  exists st1, new; split; [exact Hmain|].
  split; [exact Hrows|]. split; [exact Hnames|].
  rewrite Hlen, <- (length_map file_name new), Hnames; reflexivity.
Defined.

(** ** Rejected uploads and the store *)

Section RejectedUploads.
Context `{Sha256} `{Zlib}.
Variable str_float : Q -> string.
Variable cfg : Server.Config.

(** With a lawful gzip stream the server decompresses what
    [read_and_compress] produced, for any positive chunk size. *)
Lemma read_and_compress_decompresses (file : bytes) (chunk_size : N)
    (c : Client.Compressed) :
  zlib_roundtrips -> (0 < chunk_size)%N ->
  Client.read_and_compress file chunk_size = Some c ->
  z_decompress (Client.compressed c) = inr file.
Proof.
  intros Hz Hn; unfold Client.read_and_compress.
  destruct (read_loop_cut chunk_size (S (length file)) Hn file
              Client.loop_init ltac:(lia)) as [chunks [Hc [_ [_ Hrun]]]].
  rewrite Hrun; cbn [option_map]; intros [= <-].
  unfold Client.finish, Client.after_chunks.
  cbn [Client.compressed Client.compressor Client.compressed_parts
       Client.loop_init].
  rewrite concat_append_nonempty, concat_fold_append_nonempty.
  cbn [concat app]; rewrite <- Hc.
  etransitivity; [|exact (Hz chunks)]; unfold z_stream.
  now destruct (z_feed compressobj chunks) as [parts z].
Qed.

(** What the handler does with a request it rejects. *)
Lemma upload_file_rejects (req : Server.Request) (g : Rng) :
  truthy (Server.q_filename req) = None \/
  truthy (Server.q_checksum req) = None \/
  (exists e, z_decompress (Server.body req) = inl e) ->
  Server.status_is_error (Server.response (Server.upload_file cfg req g))
    = true /\
  Server.scheduled_write (Server.upload_file cfg req g) = None /\
  Server.rng_after (Server.upload_file cfg req g) = g.
Proof.
  intros Hbad; unfold Server.upload_file.
  destruct (truthy (Server.q_filename req)) as [fname|];
    [destruct (truthy (Server.q_checksum req)) as [csum|] |].
  - destruct Hbad as [Hbad | [Hbad | [e He]]]; try discriminate.
    rewrite He; cbn; repeat split.
  - cbn; repeat split.
  - cbn; repeat split.
Qed.

(** C1.  For every upload call whose filename or checksum is missing
    (absent or empty) or whose body fails to decompress, whoever makes it,
    the call ends with an error result and the record store is afterwards
    exactly as it was before: no record is appended.  The handler, which has
    no access to the store, returns [status = error], schedules no write and
    does not reach the corruption block.  [send_file], the only writer of
    the store, never makes such a call: with a lawful gzip stream the
    request it builds for a named file carries the name and the digest and
    a body that decompresses, so a rejected call is never one of its own. *)
Theorem rejected_upload_leaves_store (u : Transfer.Upload)
    (req : Server.Request) (g : Rng) (store : Store) :
  zlib_roundtrips ->
  Transfer.from_client_file u req ->
  Transfer.request_made str_float u = Some req ->
  truthy (Server.q_filename req) = None \/
  truthy (Server.q_checksum req) = None \/
  (exists e, z_decompress (Server.body req) = inl e) ->
  u = Transfer.ByOther req /\
  exists out,
    Transfer.perform str_float cfg u g store = Some (store, out) /\
    out = Server.upload_file cfg req g /\
    Server.status_is_error (Server.response out) = true /\
    Server.scheduled_write out = None /\
    Server.rng_after out = g.
Proof.
  intros Hz Hfile Hreq Hbad.
  destruct u as [name file elapsed_ms | req1].
  - exfalso; cbn [Transfer.request_made] in Hreq.
    destruct (Client.read_and_compress file Client.default_chunk_size)
      as [c|] eqn:Hc; [|discriminate].
    cbn [option_map] in Hreq; injection Hreq as <-.
    destruct Hfile as [Hname Hsum].
    cbn [Client.request_of Server.q_filename Server.q_checksum Server.body]
      in Hbad, Hsum.
    destruct Hbad as [Hbad | [Hbad | [e He]]].
    + rewrite (truthy_nonempty name Hname) in Hbad; discriminate.
    + rewrite truthy_nonempty in Hbad by congruence; discriminate.
    + rewrite (read_and_compress_decompresses file Client.default_chunk_size
                 c Hz eq_refl Hc) in He.
      discriminate.
  - cbn [Transfer.request_made] in Hreq; injection Hreq as ->.
    split; [reflexivity|].
    exists (Server.upload_file cfg req g).
    split; [reflexivity|]. split; [reflexivity|].
    now apply upload_file_rejects.
Qed.

End RejectedUploads.

(** An upload without a filename, and one whose body is not a gzip stream,
    made while the store holds the four example rows. *)
Lemma rejected_upload_leaves_store_witness :
  (exists out,
     Transfer.perform (H := StoredLibs.sha) (H0 := StoredLibs.zlib)
       StoredLibs.str_float Server.config
       (Transfer.ByOther Samples.upload_without_filename) Samples.rng0
       (Some Samples.four_rows) = Some (Some Samples.four_rows, out) /\
     out = Server.upload_file (H := StoredLibs.sha) (H0 := StoredLibs.zlib)
             Server.config Samples.upload_without_filename Samples.rng0 /\
     Server.status_is_error (Server.response out) = true /\
     Server.scheduled_write out = None /\
     Server.rng_after out = Samples.rng0) /\
  (exists out,
     Transfer.perform (H := StoredLibs.sha) (H0 := StoredLibs.zlib)
       StoredLibs.str_float Server.config
       (Transfer.ByOther Samples.upload_garbage) Samples.rng0 None
       = Some (None, out) /\
     out = Server.upload_file (H := StoredLibs.sha) (H0 := StoredLibs.zlib)
             Server.config Samples.upload_garbage Samples.rng0 /\
     Server.status_is_error (Server.response out) = true /\
     Server.scheduled_write out = None /\
     Server.rng_after out = Samples.rng0).
Proof.
  split.
  - exact (proj2
             (rejected_upload_leaves_store (H := StoredLibs.sha)
                (H0 := StoredLibs.zlib) StoredLibs.str_float Server.config
                (Transfer.ByOther Samples.upload_without_filename)
                Samples.upload_without_filename Samples.rng0
                (Some Samples.four_rows)
                stored_zlib_roundtrips I eq_refl (or_introl eq_refl))).
  - exact (proj2
             (rejected_upload_leaves_store (H := StoredLibs.sha)
                (H0 := StoredLibs.zlib) StoredLibs.str_float Server.config
                (Transfer.ByOther Samples.upload_garbage)
                Samples.upload_garbage Samples.rng0 None
                stored_zlib_roundtrips I eq_refl
                (or_intror (or_intror (ex_intro _ _ eq_refl))))).
Defined.
